(** * aha-mcp: reference resolution and record synchronisation

    A shallow embedding of the handlers of [src/handlers.ts] together with
    the reference patterns of [src/types.ts], and the properties the
    specification states about them.

    Conventions of the embedding.
    - JavaScript strings are [string]s; a character outside ASCII matches
      none of the character classes used by the patterns. [toLowerCase]
      is embedded on ASCII text: a property that depends on what it makes
      of a string assumes that the string is ASCII.
    - JSON objects are finite maps from property names to values; two
      objects are equal when they have the same properties (the order in
      which [JSON.stringify] prints the keys is not modelled). Numbers are
      integers; a property that depends on how one is printed assumes
      that it is in the range the engine holds exactly.
    - The handlers are embedded from the statement that follows the
      destructuring of [request.params.arguments], on the properties it
      binds, each of which may be left out; [callToolRequest] puts the
      destructuring in front, for a request without any [arguments].
    - The two transports ([GraphQLClient.request] and the global [fetch])
      are oracles: the answer to a call may depend on the number of calls
      made before it and on the request. Request headers and the writes
      to [console.error] are left out.
    - [while] loops run on fuel; running out of fuel is a result of its
      own ([Diverge]), never confused with a returned value or an error. *)

From Stdlib Require Import ZArith List Bool Ascii String Lia.
From stdpp Require Import gmap strings list fin_maps pretty.

Set Warnings "-register-all".

Local Open Scope string_scope.
Local Open Scope list_scope.
Local Open Scope Z_scope.

(** ** Regular expressions

    The three patterns of [types.ts] only use literals, character ranges,
    concatenation, alternation inside a class, [*] and [+], and are
    anchored on both sides: [RegExp.prototype.test] then decides membership
    of the whole string in the language of the pattern. *)

Module Regex.

Inductive regex : Type :=
| Void
| Eps
| Lit (c : ascii)
| Range (lo hi : ascii)
| Alt (r1 r2 : regex)
| Seq (r1 r2 : regex)
| Star (r : regex).

(** [r+] *)
Definition Plus (r : regex) : regex := Seq r (Star r).

(** The language of a pattern. *)
Inductive lang : regex -> list ascii -> Prop :=
| lang_eps : lang Eps []
| lang_lit c : lang (Lit c) [c]
| lang_range lo hi c :
    (N_of_ascii lo <= N_of_ascii c)%N -> (N_of_ascii c <= N_of_ascii hi)%N ->
    lang (Range lo hi) [c]
| lang_alt_l r1 r2 s : lang r1 s -> lang (Alt r1 r2) s
| lang_alt_r r1 r2 s : lang r2 s -> lang (Alt r1 r2) s
| lang_seq r1 r2 s1 s2 : lang r1 s1 -> lang r2 s2 -> lang (Seq r1 r2) (s1 ++ s2)
| lang_star_nil r : lang (Star r) []
| lang_star_cons r c s1 s2 :
    lang r (c :: s1) -> lang (Star r) s2 -> lang (Star r) (c :: s1 ++ s2).

Definition in_range (lo hi c : ascii) : bool :=
  (N_of_ascii lo <=? N_of_ascii c)%N && (N_of_ascii c <=? N_of_ascii hi)%N.

Fixpoint regex_eqb (a b : regex) : bool :=
  match a, b with
  | Void, Void => true
  | Eps, Eps => true
  | Lit c, Lit d => Ascii.eqb c d
  | Range l h, Range l' h' => Ascii.eqb l l' && Ascii.eqb h h'
  | Alt a1 a2, Alt b1 b2 => regex_eqb a1 b1 && regex_eqb a2 b2
  | Seq a1 a2, Seq b1 b2 => regex_eqb a1 b1 && regex_eqb a2 b2
  | Star a1, Star b1 => regex_eqb a1 b1
  | _, _ => false
  end.

Fixpoint nullable (r : regex) : bool :=
  match r with
  | Void => false
  | Eps => true
  | Lit _ => false
  | Range _ _ => false
  | Alt r1 r2 => nullable r1 || nullable r2
  | Seq r1 r2 => nullable r1 && nullable r2
  | Star _ => true
  end.

(** Constructors that keep derivatives small. *)
Definition alt' (r1 r2 : regex) : regex :=
  match r1, r2 with
  | Void, _ => r2
  | _, Void => r1
  | _, _ => if regex_eqb r1 r2 then r1 else Alt r1 r2
  end.

Definition seq' (r1 r2 : regex) : regex :=
  match r1 with
  | Void => Void
  | Eps => r2
  | _ => match r2 with Void => Void | _ => Seq r1 r2 end
  end.

(** Brzozowski derivative. *)
Fixpoint deriv (c : ascii) (r : regex) : regex :=
  match r with
  | Void => Void
  | Eps => Void
  | Lit a => if Ascii.eqb a c then Eps else Void
  | Range lo hi => if in_range lo hi c then Eps else Void
  | Alt r1 r2 => alt' (deriv c r1) (deriv c r2)
  | Seq r1 r2 =>
      if nullable r1
      then alt' (seq' (deriv c r1) r2) (deriv c r2)
      else seq' (deriv c r1) r2
  | Star r1 => seq' (deriv c r1) (Star r1)
  end.

Fixpoint derivs (s : list ascii) (r : regex) : regex :=
  match s with
  | [] => r
  | c :: s' => derivs s' (deriv c r)
  end.

Definition matches (r : regex) (s : list ascii) : bool := nullable (derivs s r).

(** [re.test(s)] for a pattern anchored with [^] and [$]. *)
Definition test (r : regex) (s : string) : bool :=
  matches r (list_ascii_of_string s).

(** *** Deciding that two patterns never match the same string

    Pairs of derivatives reachable from a pair of patterns are explored
    exhaustively; the patterns are disjoint when no reachable pair has both
    components nullable. *)

Definition all_ascii : list ascii := map ascii_of_nat (seq 0 256).

Definition pair_eqb (p q : regex * regex) : bool :=
  regex_eqb p.1 q.1 && regex_eqb p.2 q.2.

Definition mem_pair (q : regex * regex) (Q : list (regex * regex)) : bool :=
  existsb (pair_eqb q) Q.

Definition step_pair (c : ascii) (q : regex * regex) : regex * regex :=
  (deriv c q.1, deriv c q.2).

Definition closed (Q : list (regex * regex)) : bool :=
  forallb (fun q => forallb (fun c => mem_pair (step_pair c q) Q) all_ascii) Q.

Definition never_both (Q : list (regex * regex)) : bool :=
  forallb (fun q => negb (nullable q.1 && nullable q.2)) Q.

Fixpoint explore (fuel : nat) (todo seen : list (regex * regex))
    : list (regex * regex) :=
  match fuel with
  | O => seen
  | S fuel' =>
      match todo with
      | [] => seen
      | q :: rest =>
          if mem_pair q seen then explore fuel' rest seen
          else explore fuel' (map (fun c => step_pair c q) all_ascii ++ rest)%list
                 (q :: seen)
      end
  end.

Definition reachable (r1 r2 : regex) : list (regex * regex) :=
  explore (Nat.mul 64 257) [(r1, r2)] [].

End Regex.

Import Regex.

(** ** [types.ts]: the reference patterns *)

Definition upper : regex := Range "A" "Z".
Definition digit : regex := Range "0" "9".
Definition dash : regex := Lit "-".

(** The prefix segment: an upper-case letter, then upper-case letters or digits. *)
Definition prefix_segment : regex := Seq upper (Star (Alt upper digit)).

(** [FEATURE_REF_REGEX]: prefix segment, a dash, one or more digits. *)
Definition FEATURE_REF_REGEX : regex :=
  Seq prefix_segment (Seq dash (Plus digit)).

(** [REQUIREMENT_REF_REGEX]: prefix segment, dash, digits, dash, digits. *)
Definition REQUIREMENT_REF_REGEX : regex :=
  Seq prefix_segment (Seq dash (Seq (Plus digit) (Seq dash (Plus digit)))).

(** [NOTE_REF_REGEX]: prefix segment, dash, the letter N, dash, digits. *)
Definition NOTE_REF_REGEX : regex :=
  Seq prefix_segment (Seq dash (Seq (Lit "N") (Seq dash (Plus digit)))).


(** ** JavaScript values

    The values the handlers receive and build: JSON values and [undefined].
    Numbers are the integers the handlers count with. *)

Inductive JsValue : Type :=
| JUndefined
| JNull
| JBool (b : bool)
| JNum (n : Z)
| JStr (s : string)
| JArr (l : list JsValue)
| JObj (m : gmap string JsValue).

(** [if (v)], [!v], [v || d] *)
Definition truthy (v : JsValue) : bool :=
  match v with
  | JUndefined | JNull => false
  | JBool b => b
  | JNum n => negb (n =? 0)
  | JStr s => negb (String.eqb s "")
  | JArr _ | JObj _ => true
  end.

(** [v == null], the test behind [?.] *)
Definition nullish (v : JsValue) : bool :=
  match v with
  | JUndefined | JNull => true
  | _ => false
  end.

(** [String(v)], as used by template literals. A number is printed digit
    by digit, as the engine prints the integers it holds exactly. *)
Fixpoint ToString (v : JsValue) : string :=
  match v with
  | JUndefined => "undefined"
  | JNull => "null"
  | JBool true => "true"
  | JBool false => "false"
  | JNum n => pretty n
  | JStr s => s
  | JArr l =>
      String.concat ","
        (map (fun x => if nullish x then "" else ToString x) l)
  | JObj _ => "[object Object]"
  end.

(** [String.prototype.toLowerCase] on ASCII text. *)
Definition lower_ascii (c : ascii) : ascii :=
  if in_range "A" "Z" c then ascii_of_N (N_of_ascii c + 32) else c.

Fixpoint toLowerCase (s : string) : string :=
  match s with
  | EmptyString => EmptyString
  | String c s' => String (lower_ascii c) (toLowerCase s')
  end.

(** [String.prototype.includes] *)
Fixpoint includes (s sub : string) : bool :=
  String.prefix sub s ||
  match s with
  | EmptyString => false
  | String _ s' => includes s' sub
  end.

(** ** Errors

    [ErrorCode] and [McpError] come from the protocol SDK; an [McpError] is
    kept as the two arguments its constructor was called with. *)

Inductive ErrorCode : Type :=
| ConnectionClosed
| RequestTimeout
| ParseError
| InvalidRequest
| MethodNotFound
| InvalidParams
| InternalError.

Record McpError : Type := mkMcpError { code : ErrorCode; message : string }.

(** What a [throw] or a rejected promise carries. *)
Inductive Exception : Type :=
| ExMcp (e : McpError)          (* error instanceof McpError *)
| ExError (msg : string)        (* any other Error, with its message *)
| ExValue (v : JsValue).        (* a value that is not an Error *)

(** [error instanceof Error ? error.message : String(error)] *)
Definition errorMessage (error : Exception) : string :=
  match error with
  | ExMcp e => message e
  | ExError msg => msg
  | ExValue v => ToString v
  end.

(** Errors raised by the engine itself; the message text is the engine's. *)
Definition TypeError (msg : string) : Exception := ExError msg.

(** ** Transports *)

Inductive Settled (A : Type) : Type :=
| Resolved (a : A)
| Rejected (e : Exception).
Arguments Resolved {A} a.
Arguments Rejected {A} e.

(** The documents of [queries.ts]. *)
Inductive Query : Type :=
| getPageQuery
| getFeatureQuery
| getRequirementQuery
| introspectFeatureFieldsQuery
| searchDocumentsQuery.

Record GqlRequest : Type := mkGql {
  document : Query;
  variables : gmap string JsValue
}.

Inductive Method : Type := GET | PUT.

(** The REST paths under ["https://${AHA_DOMAIN}.aha.io/api/v1"]. *)
Inductive Endpoint : Type :=
| FeatureEndpoint (reference : string)
    (* /features/${reference} *)
| ReleaseFeaturesEndpoint (releaseReference : string) (page : Z) (perPage : Z)
    (* /releases/${releaseReference}/features?page=${page}&per_page=${perPage} *)
| ProductsEndpoint (page : Z)
    (* /products?page=${page}&per_page=100 *)
| ProductReleasesEndpoint (productId : string) (page : Z).
    (* /products/${productId}/releases?page=${page}&per_page=100 *)

Record FetchRequest : Type := mkFetch {
  endpoint : Endpoint;
  method : Method;
  body : option JsValue          (* the value given to JSON.stringify *)
}.

(** [data.pagination], with [total_pages] a number when it is there. *)
Record Pagination : Type := mkPagination { total_pages : option Z }.

(** A parsed JSON body: an object, its [pagination] property typed as the
    handlers use it. *)
Record Body : Type := mkBody {
  props : gmap string JsValue;
  pagination : option Pagination
}.

Record Response : Type := mkResponse {
  ok : bool;
  status : Z;
  statusText : string;
  text : Settled string;         (* response.text() *)
  json : Settled Body            (* response.json() *)
}.

(** The answer of a transport to its [n]-th call (counting both
    transports from 0). *)
Record Backend : Type := mkBackend {
  client_request : nat -> GqlRequest -> Settled JsValue;
  global_fetch : nat -> FetchRequest -> Settled Response
}.

Inductive Call : Type :=
| GqlCall (r : GqlRequest)
| FetchCall (r : FetchRequest).

(** ** The handler monad: calls made so far, and how a computation ends *)

Inductive Result (A : Type) : Type :=
| Return (a : A)
| Throw (e : Exception)
| Diverge.
Arguments Return {A} a.
Arguments Throw {A} e.
Arguments Diverge {A}.

Definition M (A : Type) : Type := Backend -> list Call -> Result A * list Call.

Definition ret {A} (a : A) : M A := fun _ tr => (Return a, tr).

Definition bind {A B} (m : M A) (k : A -> M B) : M B :=
  fun be tr =>
    match m be tr with
    | (Return a, tr') => k a be tr'
    | (Throw e, tr') => (Throw e, tr')
    | (Diverge, tr') => (Diverge, tr')
    end.

Definition throw {A} (e : Exception) : M A := fun _ tr => (Throw e, tr).

Definition diverge {A} : M A := fun _ tr => (Diverge, tr).

(** [try { body } catch (error) { handler }] *)
Definition try_catch {A} (body : M A) (handler : Exception -> M A) : M A :=
  fun be tr =>
    match body be tr with
    | (Throw e, tr') => handler e be tr'
    | r => r
    end.

(** [await p] *)
Definition await {A} (p : Settled A) : M A :=
  match p with
  | Resolved a => ret a
  | Rejected e => throw e
  end.

(** [await this.client.request(query, variables)] *)
Definition request (q : Query) (vars : gmap string JsValue) : M JsValue :=
  fun be tr =>
    let r := mkGql q vars in
    await (client_request be (List.length tr) r) be (tr ++ [GqlCall r])%list.

(** [await fetch(url, init)] *)
Definition fetch (r : FetchRequest) : M Response :=
  fun be tr =>
    await (global_fetch be (List.length tr) r) be (tr ++ [FetchCall r])%list.

Declare Scope handler_scope.
Delimit Scope handler_scope with handler.
Notation "x <- m ;; k" := (bind m (fun x => k))
  (at level 100, m at next level, right associativity) : handler_scope.
Notation "m ;;; k" := (bind m (fun _ => k))
  (at level 100, right associativity) : handler_scope.
Local Open Scope handler_scope.

(** [while (cond) { body }] over the loop's variables. *)
Fixpoint while {S : Type} (fuel : nat) (cond : S -> bool) (loop_body : S -> M S)
    (s : S) : M S :=
  if cond s then
    match fuel with
    | O => diverge
    | Datatypes.S fuel' => s' <- loop_body s ;; while fuel' cond loop_body s'
    end
  else ret s.

(** [o.k] on a value that is neither [null] nor [undefined]: [undefined]
    when the property is not there. *)
Definition get (o : JsValue) (k : string) : JsValue :=
  match o with
  | JObj m => default JUndefined (m !! k)
  | _ => JUndefined
  end.

(** [o.k]: a [TypeError] on [null] and [undefined]. *)
Definition prop (o : JsValue) (k : string) : M JsValue :=
  if nullish o
  then throw (TypeError ("Cannot read properties of " +:+ ToString o))
  else ret (get o k).

(** [...v] in an argument list. *)
Definition spread (v : JsValue) : M (list JsValue) :=
  match v with
  | JArr l => ret l
  | JStr s => ret (map (fun c => JStr (String c EmptyString)) (list_ascii_of_string s))
  | _ => throw (TypeError (ToString v +:+ " is not iterable"))
  end.

(** [v?.toLowerCase()] *)
Definition opt_toLowerCase (v : JsValue) : M JsValue :=
  match v with
  | JUndefined | JNull => ret JUndefined
  | JStr s => ret (JStr (toLowerCase s))
  | _ => throw (TypeError "toLowerCase is not a function")
  end.

(** ** Tool results *)

Inductive Text : Type :=
| Literal (s : string)
| JSON_stringify (v : JsValue).       (* JSON.stringify(v, null, 2) *)

Record Content : Type := mkContent { type : string; content_text : Text }.

Record ToolResult : Type := mkToolResult { content : list Content }.

Definition text_result (t : Text) : ToolResult :=
  mkToolResult [mkContent "text" t].

(** An object literal. *)
Definition object (kvs : list (string * JsValue)) : JsValue :=
  JObj (list_to_map kvs).

(** The whole parsed body as a value. *)
Definition body_value (b : Body) : JsValue :=
  JObj (match pagination b with
        | None => props b
        | Some p =>
            <["pagination" :=
                object (match total_pages p with
                        | None => []
                        | Some n => [("total_pages", JNum n)]
                        end)]> (props b)
        end).

(** ** [handlers.ts] *)

(** [request.params.arguments]: every property a handler destructures,
    [None] when the caller left it out. [fields] is given by
    [Object.entries(fields)], in the order the engine enumerates it. *)
Record ToolArguments : Type := mkArgs {
  reference : option string;
  includeParent : option bool;
  query : option string;
  searchableType : option string;
  fields : option (list (string * JsValue));
  releaseReference : option string;
  perPage : option Z;
  workspacePrefix : option string;
  name : option string
}.

(** [!s] for a string argument: left out, or empty. *)
Definition missing (s : option string) : bool :=
  match s with
  | None => true
  | Some s' => String.eqb s' ""
  end.

Definition invalid_params {A} (msg : string) : M A :=
  throw (ExMcp (mkMcpError InvalidParams msg)).

(** The [catch] block every handler ends with; only the prefix differs.
    [
      if (error instanceof McpError) throw error;
      const errorMessage = error instanceof Error ? error.message : String(error);
      throw new McpError(ErrorCode.InternalError, `${prefix}${errorMessage}`);
    ] *)
Definition rethrow {A} (prefix : string) (error : Exception) : M A :=
  match error with
  | ExMcp _ => throw error
  | _ => throw (ExMcp (mkMcpError InternalError (prefix +:+ errorMessage error)))
  end.

(** [`REST API error: ${response.status} ${response.statusText}`] *)
Definition rest_error (response : Response) : string :=
  "REST API error: " +:+ pretty (status response) +:+ " " +:+ statusText response.

Definition handleGetRecord (args : ToolArguments) : M ToolResult :=
  if missing (reference args) then invalid_params "Reference number is required"
  else
    let ref := default "" (reference args) in
    try_catch
      (result <-
         (if test FEATURE_REF_REGEX ref then
            data <- request getFeatureQuery {[ "id" := JStr ref ]} ;;
            prop data "feature"
          else if test REQUIREMENT_REF_REGEX ref then
            data <- request getRequirementQuery {[ "id" := JStr ref ]} ;;
            prop data "requirement"
          else
            invalid_params
              "Invalid reference number format. Expected DEVELOP-123 or ADT-123-1") ;;
       if negb (truthy result) then
         ret (text_result (Literal ("No record found for reference " +:+ ref)))
       else
         ret (text_result (JSON_stringify result)))
      (rethrow "Failed to fetch record: ").

Definition handleGetPage (args : ToolArguments) : M ToolResult :=
  if missing (reference args) then invalid_params "Reference number is required"
  else
    let ref := default "" (reference args) in
    if negb (test NOTE_REF_REGEX ref) then
      invalid_params "Invalid reference number format. Expected ABC-N-213"
    else
      try_catch
        (data <- request getPageQuery
                   (<["id" := JStr ref]>
                      {[ "includeParent" := JBool (default false (includeParent args)) ]}) ;;
         page <- prop data "page" ;;
         if negb (truthy page) then
           ret (text_result (Literal ("No page found for reference " +:+ ref)))
         else
           ret (text_result (JSON_stringify page)))
        (rethrow "Failed to fetch page: ").

Definition handleSearchDocuments (args : ToolArguments) : M ToolResult :=
  if missing (query args) then invalid_params "Search query is required"
  else
    let q := default "" (query args) in
    try_catch
      (data <- request searchDocumentsQuery
                 (<["query" := JStr q]>
                    {[ "searchableType" :=
                         JArr [JStr (default "Page" (searchableType args))] ]}) ;;
       found <- prop data "searchDocuments" ;;
       ret (text_result (JSON_stringify found)))
      (rethrow "Failed to search documents: ").

Definition handleIntrospectFeature : M ToolResult :=
  try_catch
    (data <- request introspectFeatureFieldsQuery ∅ ;;
     ret (text_result (JSON_stringify data)))
    (rethrow "Failed to introspect: ").

Definition handleGetRecordRest (args : ToolArguments) : M ToolResult :=
  if missing (reference args) then invalid_params "Reference number is required"
  else
    let ref := default "" (reference args) in
    try_catch
      (response <- fetch (mkFetch (FeatureEndpoint ref) GET None) ;;
       if negb (ok response) then throw (ExError (rest_error response))
       else
         data <- await (json response) ;;
         ret (text_result (JSON_stringify (body_value data))))
      (rethrow "Failed to fetch record via REST: ").

(** Known standard fields from the Aha! API documentation. *)
Definition standardFieldNames : list string :=
  [ "name"; "workflow_kind"; "workflow_status"; "release"; "description";
    "created_by"; "assigned_to_user"; "tags";
    "initial_estimate_text"; "detailed_estimate_text"; "remaining_estimate_text";
    "initial_estimate"; "detailed_estimate"; "remaining_estimate";
    "start_date"; "due_date"; "release_phase"; "initiative"; "epic";
    "progress_source"; "progress"; "team"; "team_workflow_status";
    "iteration"; "program_increment" ].

(** [names.includes(key)] *)
Definition array_includes (names : list string) (key : string) : bool :=
  existsb (String.eqb key) names.

(** The two objects the loop of [handleUpdateFeature] fills. *)
Record Partition : Type := mkPartition {
  customFields : gmap string JsValue;
  standardFields : gmap string JsValue
}.

(** One turn of [for (const [key, value] of Object.entries(fields))].
    Both objects are plain object literals. None of the standard names is
    inherited from [Object.prototype] through an accessor, so
    [standardFields[key] = value] always adds or replaces a property.
    [customFields[key] = value] does so for every key but ["__proto__"]:
    that assignment runs the setter of [Object.prototype], which adds no
    property to [customFields], whatever the value; neither
    [Object.keys] nor [JSON.stringify] sees what it does instead. *)
Definition partition_step (acc : Partition) (entry : string * JsValue) : Partition :=
  let '(key, value) := entry in
  if array_includes standardFieldNames key then
    mkPartition (customFields acc) (<[key := value]> (standardFields acc))
  else if String.eqb key "__proto__" then acc
  else
    mkPartition (<[key := value]> (customFields acc)) (standardFields acc).

Definition partition_fields (entries : list (string * JsValue)) : Partition :=
  fold_left partition_step entries (mkPartition ∅ ∅).

(** [payload], after the conditional assignment of [custom_fields]. *)
Definition feature_payload (entries : list (string * JsValue)) : JsValue :=
  let p := partition_fields entries in
  let feature := standardFields p in
  let feature :=
    if (0 <? Z.of_nat (size (customFields p)))
    then <["custom_fields" := JObj (customFields p)]> feature
    else feature in
  JObj {[ "feature" := JObj feature ]}.

(** [!fields || Object.keys(fields).length === 0] *)
Definition no_fields (fields : option (list (string * JsValue))) : bool :=
  match fields with
  | None => true
  | Some entries => (Z.of_nat (List.length entries) =? 0)
  end.

Definition handleUpdateFeature (args : ToolArguments) : M ToolResult :=
  if missing (reference args) then invalid_params "Reference number is required"
  else if no_fields (fields args) then
    invalid_params "Fields object is required with at least one field to update"
  else
    let ref := default "" (reference args) in
    let entries := default [] (fields args) in
    try_catch
      (let payload := feature_payload entries in
       response <- fetch (mkFetch (FeatureEndpoint ref) PUT (Some payload)) ;;
       if negb (ok response) then
         errorBody <- await (text response) ;;
         throw (ExError (rest_error response +:+ " - " +:+ errorBody))
       else
         data <- await (json response) ;;
         ret (text_result (JSON_stringify (body_value data))))
      (rethrow "Failed to update feature: ").

(** The variables of a pagination loop. *)
Record Pages : Type := mkPages {
  allItems : list JsValue;
  currentPage : Z;
  totalPages : Z
}.

(** [data.pagination.total_pages || 1], when [data.pagination] is there. *)
Definition declared_total (p : Pagination) : Z :=
  match total_pages p with
  | Some n => if n =? 0 then 1 else n
  | None => 1
  end.

(** The body of the [while] loops of [handleListFeaturesInRelease] and
    [handleListReleases]: they differ in the URL and in the property that
    holds the items. *)
Definition fetch_page (endpoint_of : Z -> Endpoint) (items_key : string)
    (s : Pages) : M Pages :=
  response <- fetch (mkFetch (endpoint_of (currentPage s)) GET None) ;;
  if negb (ok response) then throw (ExError (rest_error response))
  else
    data <- await (json response) ;;
    let items := default JUndefined (props data !! items_key) in
    all <- (if truthy items
            then pushed <- spread items ;; ret (allItems s ++ pushed)%list
            else ret (allItems s)) ;;
    let total :=
      match pagination data with
      | Some p => declared_total p
      | None => totalPages s
      end in
    ret (mkPages all (currentPage s + 1) total).

(** [let currentPage = 1; let totalPages = 1;
     while (currentPage <= totalPages) { ... }] *)
Definition paginate (fuel : nat) (endpoint_of : Z -> Endpoint) (items_key : string)
    : M (list JsValue) :=
  s <- while fuel (fun s => currentPage s <=? totalPages s)
         (fetch_page endpoint_of items_key) (mkPages [] 1 1) ;;
  ret (allItems s).

Definition handleListFeaturesInRelease (fuel : nat) (args : ToolArguments)
    : M ToolResult :=
  if missing (releaseReference args) then
    invalid_params "Release reference is required (e.g., ACT-R-14 or ACTIVATION-R-14)"
  else
    let rel := default "" (releaseReference args) in
    let per := default 100 (perPage args) in
    try_catch
      (allFeatures <-
         paginate fuel (fun page => ReleaseFeaturesEndpoint rel page per) "features" ;;
       ret (text_result (JSON_stringify
              (object [ ("total_count", JNum (Z.of_nat (List.length allFeatures)));
                        ("features", JArr allFeatures) ]))))
      (rethrow "Failed to list features in release: ").

(** [allProducts.find(p => p.reference_prefix?.toLowerCase() === wanted)] *)
Fixpoint find_product (wanted : string) (products : list JsValue) : M JsValue :=
  match products with
  | [] => ret JUndefined
  | p :: rest =>
      prefix <- prop p "reference_prefix" ;;
      lowered <- opt_toLowerCase prefix ;;
      match lowered with
      | JStr s => if String.eqb s wanted then ret p else find_product wanted rest
      | _ => find_product wanted rest
      end
  end.

(** [xs.map(f)] for a callback that can throw. *)
Fixpoint mapM {A B} (f : A -> M B) (xs : list A) : M (list B) :=
  match xs with
  | [] => ret []
  | x :: rest => y <- f x ;; ys <- mapM f rest ;; ret (y :: ys)
  end.

(** [xs.filter(f)] for a callback that can throw. *)
Fixpoint filterM {A} (f : A -> M bool) (xs : list A) : M (list A) :=
  match xs with
  | [] => ret []
  | x :: rest =>
      keep <- f x ;; ys <- filterM f rest ;;
      ret (if keep then x :: ys else ys)
  end.

(** [strings.join(", ")]: [null] and [undefined] elements print as nothing. *)
Definition join (sep : string) (xs : list JsValue) : string :=
  String.concat sep (map (fun x => if nullish x then "" else ToString x) xs).

(** [r => r.name?.toLowerCase().includes(searchName)] *)
Definition name_matches (searchName : string) (r : JsValue) : M bool :=
  n <- prop r "name" ;;
  lowered <- opt_toLowerCase n ;;
  match lowered with
  | JStr s => ret (includes s searchName)
  | _ => ret false
  end.

(** The projection of a release to the fields the tool reports. *)
Definition format_release (r : JsValue) : M JsValue :=
  reference_num <- prop r "reference_num" ;;
  rname <- prop r "name" ;;
  start_date <- prop r "start_date" ;;
  release_date <- prop r "release_date" ;;
  parking_lot <- prop r "parking_lot" ;;
  url <- prop r "url" ;;
  ret (object [ ("reference_num", reference_num); ("name", rname);
                ("start_date", start_date); ("release_date", release_date);
                ("parking_lot", parking_lot); ("url", url) ]).

(** The double-quote character of the "not found" text. *)
Definition dquote : string := String "034"%char EmptyString.

Definition handleListReleases (fuel : nat) (args : ToolArguments) : M ToolResult :=
  if missing (workspacePrefix args) then
    invalid_params "Workspace prefix is required (e.g., ACT, ACTIVATION, DEVELOP)"
  else
    let wanted := default "" (workspacePrefix args) in
    try_catch
      (allProducts <- paginate fuel ProductsEndpoint "products" ;;
       product <- find_product (toLowerCase wanted) allProducts ;;
       if negb (truthy product) then
         prefixes <- mapM (fun p => prop p "reference_prefix") allProducts ;;
         let known := join ", " prefixes in
         ret (text_result (Literal
                ("No workspace found with prefix " +:+ dquote +:+ wanted +:+
                 dquote +:+ ". Available workspaces: " +:+
                 (if String.eqb known "" then "none" else known))))
       else
         id <- prop product "id" ;;
         allReleases <-
           paginate fuel (ProductReleasesEndpoint (ToString id)) "releases" ;;
         filteredReleases <-
           (if missing (name args) then ret allReleases
            else filterM (name_matches (toLowerCase (default "" (name args))))
                   allReleases) ;;
         formattedReleases <- mapM format_release filteredReleases ;;
         reference_prefix <- prop product "reference_prefix" ;;
         pname <- prop product "name" ;;
         ret (text_result (JSON_stringify
                (object
                   [ ("workspace",
                      object [ ("prefix", reference_prefix); ("name", pname);
                               ("id", id) ]);
                     ("total_count",
                      JNum (Z.of_nat (List.length formattedReleases)));
                     ("releases", JArr formattedReleases) ]))))
      (rethrow "Failed to list releases: ").

(** Running a handler against a backend, from an empty call log. *)
Definition run {A} (m : M A) (be : Backend) : Result A * list Call := m be [].

(** The calls a run makes to [fetch]. *)
Definition fetches (tr : list Call) : list FetchRequest :=
  omap (fun c => match c with FetchCall r => Some r | GqlCall _ => None end) tr.


(** ** What a run shows about the backend

    The vocabulary in which the properties below are stated. *)

(** The failure, if any, with which the handlers leave the call that got
    this answer: a rejected promise, a response that is not [ok] (the
    mutations add the response text to the message), or a body that does
    not parse. *)
Definition fetch_failure (m : Method) (a : Settled Response) : option Exception :=
  match a with
  | Rejected e => Some e
  | Resolved response =>
      if ok response then
        match json response with
        | Rejected e => Some e
        | Resolved _ => None
        end
      else
        match m with
        | GET => Some (ExError (rest_error response))
        | PUT =>
            match text response with
            | Rejected e => Some e
            | Resolved errorBody =>
                Some (ExError (rest_error response +:+ " - " +:+ errorBody))
            end
        end
  end.

(** The failure of the [i]-th call of a run, if it failed. *)
Definition call_failure (be : Backend) (i : nat) (c : Call) : option Exception :=
  match c with
  | GqlCall r =>
      match client_request be i r with
      | Rejected e => Some e
      | Resolved _ => None
      end
  | FetchCall r => fetch_failure (method r) (global_fetch be i r)
  end.

(** What the [catch] block makes of an exception. *)
Definition wrapped (prefix : string) (e : Exception) : Exception :=
  match e with
  | ExMcp _ => e
  | _ => ExMcp (mkMcpError InternalError (prefix +:+ errorMessage e))
  end.

(** The operations of [handlers.ts], each with the prefix of its
    internal-error message. *)
Definition operations : list (string * (nat -> ToolArguments -> M ToolResult)) :=
  [ ("Failed to fetch record: ", fun _ => handleGetRecord);
    ("Failed to fetch page: ", fun _ => handleGetPage);
    ("Failed to search documents: ", fun _ => handleSearchDocuments);
    ("Failed to introspect: ", fun _ _ => handleIntrospectFeature);
    ("Failed to fetch record via REST: ", fun _ => handleGetRecordRest);
    ("Failed to update feature: ", fun _ => handleUpdateFeature);
    ("Failed to list features in release: ", handleListFeaturesInRelease);
    ("Failed to list releases: ", handleListReleases) ].

(** The values [push(...v)] is not stopped by: the falsy ones, which the
    guard skips, and those that can be spread. *)
Definition spreadable (v : JsValue) : bool :=
  negb (truthy v) ||
  match v with
  | JArr _ | JStr _ => true
  | _ => false
  end.

Section Paging.

(** A pagination loop that starts after [base] calls. *)
Variables (be : Backend) (endpoint_of : Z -> Endpoint) (items_key : string)
          (base : nat).

(** The request for page [k + 1]. *)
Definition page_request (k : nat) : FetchRequest :=
  mkFetch (endpoint_of (Z.of_nat k + 1)) GET None.

(** The body of page [k + 1], when the fetch went through. *)
Definition page_data (k : nat) : option Body :=
  match global_fetch be (base + k) (page_request k) with
  | Resolved response =>
      if ok response then
        match json response with
        | Resolved data => Some data
        | Rejected _ => None
        end
      else None
  | Rejected _ => None
  end.

(** The items page [k + 1] delivered. *)
Definition received (k : nat) : list JsValue :=
  match page_data k with
  | Some data =>
      match props data !! items_key with
      | Some (JArr l) => l
      | Some (JStr s) =>
          map (fun c => JStr (String c EmptyString)) (list_ascii_of_string s)
      | _ => []
      end
  | None => []
  end.

(** Page [k + 1] came through, and its items could be appended. *)
Definition page_complete (k : nat) : bool :=
  match page_data k with
  | Some data => spreadable (default JUndefined (props data !! items_key))
  | None => false
  end.

(** The total-page count in force after [k] pages. *)
Fixpoint running_total (k : nat) : Z :=
  match k with
  | O => 1
  | S k' =>
      match page_data k' with
      | Some data =>
          match pagination data with
          | Some p => declared_total p
          | None => running_total k'
          end
      | None => running_total k'
      end
  end.

End Paging.




(** Every call of the log went through. *)
Definition clean (be : Backend) (tr : list Call) : Prop :=
  forall i c, tr !! i = Some c -> call_failure be i c = None.

(** A computation that stops at the first failing call and throws what
    that call failed with. *)
Definition fail_fast {A} (m : M A) : Prop :=
  forall be tr, clean be tr ->
    exists ext, (m be tr).2 = (tr ++ ext)%list /\
      (clean be (tr ++ ext) \/
       exists pre c e,
         ext = (pre ++ [c])%list /\ clean be (tr ++ pre) /\
         call_failure be (List.length (tr ++ pre)) c = Some e /\
         (m be tr).1 = Throw e).

(** Backends that answer from a script, call after call. *)
Definition scripted_client (answers : list (Settled JsValue)) : Backend :=
  mkBackend
    (fun i _ => default (Rejected (ExError "unexpected call")) (answers !! i))
    (fun _ _ => Rejected (ExError "unexpected call")).

Definition scripted_fetch (answers : list (Settled Response)) : Backend :=
  mkBackend
    (fun _ _ => Rejected (ExError "unexpected call"))
    (fun i _ => default (Rejected (ExError "unexpected call")) (answers !! i)).

(** An [ok] response with the given body. *)
Definition ok_response (data : Body) : Settled Response :=
  Resolved (mkResponse true 200 "OK" (Resolved "") (Resolved data)).

(** A response that is not [ok]. *)
Definition error_response (st : Z) (stText errorBody : string) : Settled Response :=
  Resolved (mkResponse false st stText (Resolved errorBody)
              (Rejected (ExError "Unexpected end of JSON input"))).

(** A handler at whose boundary every failing call surfaces once: the run
    ends with that call, and throws what the [catch] block makes of the
    failure. *)
Definition at_boundary (prefix : string) (h : M ToolResult) : Prop :=
  forall be res tr i c e,
    run h be = (res, tr) -> tr !! i = Some c -> call_failure be i c = Some e ->
    res = Throw (wrapped prefix e) /\ List.length tr = S i.

(** Sample runs of [list_features_in_release]. *)
Definition release_args (rel : string) (per : option Z) : ToolArguments :=
  mkArgs None None None None None (Some rel) per None None.

Definition one_feature (ref : string) (total : option Pagination) : Settled Response :=
  ok_response (mkBody {[ "features" := JArr [JStr ref] ]} total).

(** Three pages, each declaring three pages. *)
Definition three_pages : Backend :=
  scripted_fetch
    [ one_feature "PROJ-1" (Some (mkPagination (Some 3)));
      one_feature "PROJ-2" (Some (mkPagination (Some 3)));
      one_feature "PROJ-3" (Some (mkPagination (Some 3))) ].

(** Three pages, the second without [pagination]. *)
Definition second_page_silent : Backend :=
  scripted_fetch
    [ one_feature "PROJ-1" (Some (mkPagination (Some 3)));
      one_feature "PROJ-2" None;
      one_feature "PROJ-3" (Some (mkPagination (Some 3))) ].

(** Sample arguments of the update operations. *)
Definition update_args (ref : option string) (fields : option (list (string * JsValue)))
    : ToolArguments :=
  mkArgs ref None None None fields None None None None.

Definition mixed_fields : list (string * JsValue) :=
  [ ("name", JStr "New Name"); ("due_date", JStr "2024-12-31");
    ("release_stage", JStr "GA"); ("go_live_date", JStr "2024-06-01") ].

(** Sample runs of [list_releases], after the test suite. *)
Definition releases_args (workspace : string) (filter : option string) : ToolArguments :=
  mkArgs None None None None None None None (Some workspace) filter.

Definition one_product : Settled Response :=
  ok_response
    (mkBody {[ "products" :=
                 JArr [ object [ ("id", JStr "100"); ("reference_prefix", JStr "PROJ");
                                 ("name", JStr "Test") ] ] ]}
       (Some (mkPagination (Some 1)))).

Definition release_named (ref rname : string) : JsValue :=
  object [ ("reference_num", JStr ref); ("name", JStr rname) ].

Definition three_releases : Settled Response :=
  ok_response
    (mkBody {[ "releases" :=
                 JArr [ release_named "PROJ-R-1" "FY2027Q1";
                        release_named "PROJ-R-2" "FY2027Q2";
                        release_named "PROJ-R-3" "FY2026Q4" ] ]}
       (Some (mkPagination (Some 1)))).

(** What [format_release] makes of [release_named]. *)
Definition formatted (ref rname : string) : JsValue :=
  object [ ("reference_num", JStr ref); ("name", JStr rname);
           ("start_date", JUndefined); ("release_date", JUndefined);
           ("parking_lot", JUndefined); ("url", JUndefined) ].

(** ** More vocabulary for the reference patterns *)

(** The characters a pattern can consume. *)
Fixpoint mentions (r : regex) (c : ascii) : bool :=
  match r with
  | Void | Eps => false
  | Lit a => Ascii.eqb a c
  | Range lo hi => in_range lo hi c
  | Alt r1 r2 | Seq r1 r2 => mentions r1 c || mentions r2 c
  | Star r1 => mentions r1 c
  end.

(** An upper-case letter, a digit or the separator. *)
Definition ref_char (c : ascii) : bool :=
  in_range "A" "Z" c || in_range "0" "9" c || Ascii.eqb "-" c.

(** The number of separators of a reference. *)
Definition dashes (s : string) : nat :=
  count_occ ascii_dec (list_ascii_of_string s) "-"%char.

(** ** [index.ts]: the tool list and the dispatcher *)

(** An entry of the [ListTools] answer: the name of the tool, the
    properties of its [inputSchema] with their [default], and the
    [required] ones. *)
Record Tool : Type := mkTool {
  tool_name : string;
  properties : list (string * option JsValue);
  required : list string
}.

Definition tools : list Tool :=
  [ mkTool "get_record" [ ("reference", None) ] [ "reference" ];
    mkTool "get_page"
      [ ("reference", None); ("includeParent", Some (JBool false)) ]
      [ "reference" ];
    mkTool "search_documents"
      [ ("query", None); ("searchableType", Some (JStr "Page")) ]
      [ "query" ];
    mkTool "introspect_feature" [] [];
    mkTool "get_record_rest" [ ("reference", None) ] [ "reference" ];
    mkTool "list_features_in_release"
      [ ("releaseReference", None); ("perPage", Some (JNum 100)) ]
      [ "releaseReference" ];
    mkTool "update_feature" [ ("reference", None); ("fields", None) ]
      [ "reference"; "fields" ] ].

(** The [CallToolRequest] handler on a request that carries an
    [arguments] object: [request.params.name] selects the handler; a name
    that is none of the seven is refused. *)
Definition callTool (fuel : nat) (tool : string) (args : ToolArguments)
    : M ToolResult :=
  if String.eqb tool "get_record" then handleGetRecord args
  else if String.eqb tool "get_page" then handleGetPage args
  else if String.eqb tool "search_documents" then handleSearchDocuments args
  else if String.eqb tool "introspect_feature" then handleIntrospectFeature
  else if String.eqb tool "get_record_rest" then handleGetRecordRest args
  else if String.eqb tool "list_features_in_release"
       then handleListFeaturesInRelease fuel args
  else if String.eqb tool "update_feature" then handleUpdateFeature args
  else throw (ExMcp (mkMcpError MethodNotFound ("Unknown tool: " +:+ tool))).

(** [request.params] of a [tools/call]: the name of the tool, and the
    [arguments] object, which the protocol allows the caller to leave
    out. *)
Record CallToolRequest : Type := mkRequest {
  request_name : string;
  request_arguments : option ToolArguments
}.

(** [const { property, ... } = request.params.arguments], the first
    statement of every handler that takes the request. It stands before
    the [try] block: with no [arguments] object the [TypeError] of the
    engine leaves the handler as it is. *)
Definition destructure (property : string) (arguments : option ToolArguments)
    : M ToolArguments :=
  match arguments with
  | Some args => ret args
  | None =>
      throw (TypeError ("Cannot destructure property '" +:+ property +:+
                        "' of 'request.params.arguments' as it is undefined."))
  end.

(** A handler as the source has it, from the request: the destructuring,
    then the statements embedded above. *)
Definition on_request (property : string) (h : ToolArguments -> M ToolResult)
    (request : CallToolRequest) : M ToolResult :=
  args <- destructure property (request_arguments request) ;; h args.

(** The [CallToolRequest] handler on the request itself. Only
    [handleIntrospectFeature] does not read the arguments. *)
Definition callToolRequest (fuel : nat) (request : CallToolRequest) : M ToolResult :=
  let tool := request_name request in
  if String.eqb tool "get_record" then on_request "reference" handleGetRecord request
  else if String.eqb tool "get_page" then on_request "reference" handleGetPage request
  else if String.eqb tool "search_documents"
       then on_request "query" handleSearchDocuments request
  else if String.eqb tool "introspect_feature" then handleIntrospectFeature
  else if String.eqb tool "get_record_rest"
       then on_request "reference" handleGetRecordRest request
  else if String.eqb tool "list_features_in_release"
       then on_request "releaseReference" (handleListFeaturesInRelease fuel) request
  else if String.eqb tool "update_feature"
       then on_request "reference" handleUpdateFeature request
  else throw (ExMcp (mkMcpError MethodNotFound ("Unknown tool: " +:+ tool))).

(** [request.params.arguments[property]] *)
Definition argument (args : ToolArguments) (property : string) : JsValue :=
  if String.eqb property "reference" then from_option JStr JUndefined (reference args)
  else if String.eqb property "includeParent"
       then from_option JBool JUndefined (includeParent args)
  else if String.eqb property "query" then from_option JStr JUndefined (query args)
  else if String.eqb property "searchableType"
       then from_option JStr JUndefined (searchableType args)
  else if String.eqb property "fields"
       then from_option (fun entries => JObj (list_to_map entries)) JUndefined
              (fields args)
  else if String.eqb property "releaseReference"
       then from_option JStr JUndefined (releaseReference args)
  else if String.eqb property "perPage" then from_option JNum JUndefined (perPage args)
  else if String.eqb property "workspacePrefix"
       then from_option JStr JUndefined (workspacePrefix args)
  else if String.eqb property "name" then from_option JStr JUndefined (name args)
  else JUndefined.

(** The arguments with one of the optional properties of the tool list
    given a value. *)
Definition with_argument (args : ToolArguments) (property : string) (v : JsValue)
    : ToolArguments :=
  match v with
  | JBool b =>
      if String.eqb property "includeParent"
      then mkArgs (reference args) (Some b) (query args) (searchableType args)
             (fields args) (releaseReference args) (perPage args)
             (workspacePrefix args) (name args)
      else args
  | JStr s =>
      if String.eqb property "searchableType"
      then mkArgs (reference args) (includeParent args) (query args) (Some s)
             (fields args) (releaseReference args) (perPage args)
             (workspacePrefix args) (name args)
      else args
  | JNum n =>
      if String.eqb property "perPage"
      then mkArgs (reference args) (includeParent args) (query args)
             (searchableType args) (fields args) (releaseReference args) (Some n)
             (workspacePrefix args) (name args)
      else args
  | _ => args
  end.

(** A computation from which only [McpError]s escape. *)
Definition throws_only_mcp {A} (m : M A) : Prop :=
  forall be tr e tr', m be tr = (Throw e, tr') -> exists err, e = ExMcp err.

(** A backend whose every page declares one page more than it has
    served. *)
Definition ever_growing : Backend :=
  mkBackend
    (fun _ _ => Rejected (ExError "unexpected call"))
    (fun i _ =>
       ok_response (mkBody {[ "features" := JArr [] ]}
                      (Some (mkPagination (Some (Z.of_nat i + 2)))))).

(** A computation that calls no transport. *)
Definition quiet {A} (m : M A) : Prop := forall be tr, (m be tr).2 = tr.

(** A release object whose [name], when it has one, is a string. *)
Definition well_named (r : JsValue) : Prop :=
  nullish r = false /\
  match get r "name" with
  | JStr _ | JUndefined | JNull => True
  | _ => False
  end.

(** Text made of ASCII characters. On such text [toLowerCase] above is
    the method of the engine, which outside ASCII lowers other letters
    too. *)
Definition is_ascii (s : string) : bool :=
  forallb (fun c => (N_of_ascii c <? 128)%N) (list_ascii_of_string s).

(** A number the engine holds exactly and prints digit by digit, as
    [ToString] above does: the engine rounds beyond these. *)
Definition safe_integer (n : Z) : bool := Z.abs n <? 2 ^ 53.

(** A product on which the embedding follows the engine to the letter:
    its [reference_prefix], when a string, is ASCII text, and its [id] is
    not a number the engine would print rounded. *)
Definition plain_product (p : JsValue) : Prop :=
  match get p "reference_prefix" with
  | JStr s => is_ascii s = true
  | _ => True
  end /\
  match get p "id" with
  | JNum n => safe_integer n = true
  | JArr _ => False
  | _ => True
  end.

(** A release whose [name], when a string, is ASCII text. *)
Definition plain_name (r : JsValue) : Prop :=
  match get r "name" with
  | JStr s => is_ascii s = true
  | _ => True
  end.

(** A computation whose every returned value satisfies [P]. *)
Definition returns_only {A} (P : A -> Prop) (m : M A) : Prop :=
  forall be tr a tr', m be tr = (Return a, tr') -> P a.

(** A listing under [key] whose [total_count] is the length of the list. *)
Definition counted (key : string) (res : ToolResult) : Prop :=
  exists v l,
    res = text_result (JSON_stringify v) /\
    get v key = JArr l /\
    get v "total_count" = JNum (Z.of_nat (List.length l)).

(** The properties of a release that [list_releases] reports. *)
Definition reported_fields : list string :=
  [ "reference_num"; "name"; "start_date"; "release_date"; "parking_lot"; "url" ].

(** * Properties *)

(** ** The matcher decides the language of a pattern *)

Module RegexFacts.

Lemma regex_eqb_eq a b : regex_eqb a b = true -> a = b.
Proof.
  revert b; induction a; intros [] H; simpl in H; try discriminate; auto.
  - apply Ascii.eqb_eq in H. by subst.
  - apply andb_true_iff in H as [H1 H2].
    apply Ascii.eqb_eq in H1. apply Ascii.eqb_eq in H2. by subst.
  - apply andb_true_iff in H as [H1 H2]. f_equal; auto.
  - apply andb_true_iff in H as [H1 H2]. f_equal; auto.
  - f_equal; auto.
Qed.

Lemma nullable_lang r : nullable r = true <-> lang r [].
Proof.
  induction r; simpl; split; intros H; try discriminate; try reflexivity;
    try (by inversion H).
  - constructor.
  - apply orb_true_iff in H as [H|H]; [apply lang_alt_l | apply lang_alt_r]; tauto.
  - apply orb_true_iff. inversion H; subst; tauto.
  - apply andb_true_iff in H as [H1 H2].
    change (@nil ascii) with (@nil ascii ++ [])%list. constructor; tauto.
  - inversion H; subst.
    match goal with
    | E : (_ ++ _)%list = [] |- _ => apply app_eq_nil in E as [-> ->]
    end.
    apply andb_true_iff. tauto.
  - constructor.
Qed.

Lemma lang_alt' r1 r2 s : lang (alt' r1 r2) s <-> lang r1 s \/ lang r2 s.
Proof.
  assert (Hv : forall t, ~ lang Void t) by (intros t Ht; inversion Ht).
  assert (Ha : lang (Alt r1 r2) s <-> lang r1 s \/ lang r2 s).
  { split; [intros H; inversion H; subst; tauto|].
    intros [H|H]; [by apply lang_alt_l | by apply lang_alt_r]. }
  assert (Hi : lang (if regex_eqb r1 r2 then r1 else Alt r1 r2) s
               <-> lang r1 s \/ lang r2 s).
  { destruct (regex_eqb r1 r2) eqn:E; [|done].
    apply regex_eqb_eq in E. subst. tauto. }
  unfold alt'. destruct r1, r2; try exact Hi; split; try tauto;
    intros [H|H]; try done; by apply Hv in H.
Qed.

Lemma lang_seq_inv r1 r2 s :
  lang (Seq r1 r2) s <-> exists s1 s2, s = (s1 ++ s2)%list /\ lang r1 s1 /\ lang r2 s2.
Proof.
  split.
  - intros H; inversion H; subst; eauto.
  - intros (s1 & s2 & -> & H1 & H2). by constructor.
Qed.

Lemma lang_seq' r1 r2 s : lang (seq' r1 r2) s <-> lang (Seq r1 r2) s.
Proof.
  assert (Hv : forall t, ~ lang Void t) by (intros t Ht; inversion Ht).
  rewrite lang_seq_inv. unfold seq'.
  destruct r1;
    [ split; [intros H; by apply Hv in H
             | intros (s1 & s2 & -> & H1 & H2); by apply Hv in H1]
    | split; [intros H; exists [], s; split; [done | split; [constructor | done]]
             | intros (s1 & s2 & -> & H1 & H2); inversion H1; subst; done]
    | .. ].
  all: destruct r2; try (rewrite lang_seq_inv; reflexivity).
  all: split; [intros H; by apply Hv in H
              | intros (s1 & s2 & -> & H1 & H2); by apply Hv in H2].
Qed.

Lemma deriv_lang c r s : lang (deriv c r) s <-> lang r (c :: s).
Proof.
  revert s; induction r; intros s; simpl.
  - split; intros H; inversion H.
  - split; intros H; inversion H.
  - destruct (Ascii.eqb c0 c) eqn:E.
    + apply Ascii.eqb_eq in E; subst. split; intros H; inversion H; subst; constructor.
    + apply Ascii.eqb_neq in E. split; intros H; inversion H; subst; congruence.
  - unfold in_range. destruct (_ && _) eqn:E.
    + apply andb_true_iff in E as [E1 E2].
      apply N.leb_le in E1. apply N.leb_le in E2.
      split; intros H; inversion H; subst; by constructor.
    + split; intros H; inversion H; subst.
      apply andb_false_iff in E as [E|E]; apply N.leb_gt in E; lia.
  - rewrite lang_alt', IHr1, IHr2. split.
    + intros [H|H]; [by apply lang_alt_l | by apply lang_alt_r].
    + intros H; inversion H; subst; tauto.
  - assert (Hcons : lang (seq' (deriv c r1) r2) s <->
                    exists s1 s2, s = (s1 ++ s2)%list /\ lang r1 (c :: s1) /\ lang r2 s2).
    { rewrite lang_seq', lang_seq_inv. by setoid_rewrite IHr1. }
    destruct (nullable r1) eqn:N.
    + rewrite lang_alt', Hcons, IHr2, lang_seq_inv. split.
      * intros [(s1 & s2 & -> & H1 & H2) | H].
        -- exists (c :: s1), s2. done.
        -- exists [], (c :: s). split; [done|]. split; [by apply nullable_lang | done].
      * intros (s1 & s2 & Heq & H1 & H2). destruct s1 as [|a s1]; simpl in Heq.
        -- subst. by right.
        -- injection Heq as -> ->. left. eauto.
    + rewrite Hcons, lang_seq_inv. split.
      * intros (s1 & s2 & -> & H1 & H2). exists (c :: s1), s2. done.
      * intros (s1 & s2 & Heq & H1 & H2). destruct s1 as [|a s1]; simpl in Heq.
        -- apply nullable_lang in H1. congruence.
        -- injection Heq as -> ->. eauto.
  - rewrite lang_seq', lang_seq_inv. setoid_rewrite IHr. split.
    + intros (s1 & s2 & -> & H1 & H2). by constructor.
    + intros H; inversion H; subst. eauto.
Qed.

Lemma matches_lang r s : matches r s = true <-> lang r s.
Proof.
  unfold matches. revert r; induction s as [|c s IH]; intros r; simpl.
  - apply nullable_lang.
  - rewrite IH. apply deriv_lang.
Qed.

Lemma all_ascii_complete c : In c all_ascii.
Proof.
  unfold all_ascii. rewrite <- (ascii_nat_embedding c).
  apply in_map, in_seq. pose proof (nat_ascii_bounded c). lia.
Qed.

Lemma mem_pair_In q Q : mem_pair q Q = true -> In q Q.
Proof.
  unfold mem_pair. rewrite existsb_exists. intros (p & Hin & Heq).
  unfold pair_eqb in Heq. apply andb_true_iff in Heq as [H1 H2].
  apply regex_eqb_eq in H1. apply regex_eqb_eq in H2.
  destruct p, q; simpl in *; by subst.
Qed.

(** A set of pairs closed under derivatives, none of them nullable on both
    sides, contains no pair whose components accept a common string. *)
Lemma closed_never_both Q :
  closed Q = true -> never_both Q = true ->
  forall s q, In q Q -> nullable (derivs s q.1) && nullable (derivs s q.2) = false.
Proof.
  intros Hc Hn. unfold closed in Hc. unfold never_both in Hn.
  rewrite forallb_forall in Hc. rewrite forallb_forall in Hn.
  induction s as [|c s IH]; intros q Hq; simpl.
  - apply negb_true_iff. by apply Hn.
  - specialize (Hc q Hq). rewrite forallb_forall in Hc.
    specialize (Hc c (all_ascii_complete c)). apply mem_pair_In in Hc.
    apply (IH _ Hc).
Qed.

Lemma disjoint_by_exploration r1 r2 :
  mem_pair (r1, r2) (reachable r1 r2) = true ->
  closed (reachable r1 r2) = true ->
  never_both (reachable r1 r2) = true ->
  forall s, matches r1 s && matches r2 s = false.
Proof.
  intros Hm Hc Hn s. apply mem_pair_In in Hm.
  apply (closed_never_both _ Hc Hn s _ Hm).
Qed.

End RegexFacts.

(** ** The reference patterns *)

Example feature_refs :
  map (test FEATURE_REF_REGEX)
      ["PROJ-1"; "A1B2C3-789"; "proj-1"; "PROJ-"; "PROJ-1-1"; "PROJ-N-1";
       "123-456"; "PROJ-1a"; ""; "PROJ--1"]
  = [true; true; false; false; false; false; false; false; false; false].
Proof. reflexivity. Qed.

Example requirement_refs :
  map (test REQUIREMENT_REF_REGEX)
      ["PROJ-1-1"; "ACT-100-50"; "proj-1-1"; "PROJ-1"; "PROJ-N-1"; "PROJ-1-";
       "PROJ-1-1-1"; "PROJ-a-1"; ""]
  = [true; true; false; false; false; false; false; false; false].
Proof. reflexivity. Qed.

Example note_refs :
  map (test NOTE_REF_REGEX)
      ["PROJ-N-1"; "DOC-N-1"; "proj-N-1"; "PROJ-n-1"; "PROJ-1"; "PROJ-1-1";
       "PROJ-N-"; "PROJ-NN-1"; "PROJ-M-1"; ""]
  = [true; true; false; false; false; false; false; false; false; false].
Proof. reflexivity. Qed.

(** C2. The three reference patterns are pairwise disjoint: no string is
    matched by more than one of [FEATURE_REF_REGEX], [REQUIREMENT_REF_REGEX]
    and [NOTE_REF_REGEX]. *)
Theorem reference_patterns_disjoint (s : string) :
  test FEATURE_REF_REGEX s && test REQUIREMENT_REF_REGEX s = false /\
  test FEATURE_REF_REGEX s && test NOTE_REF_REGEX s = false /\
  test REQUIREMENT_REF_REGEX s && test NOTE_REF_REGEX s = false.
Proof.
  unfold test. repeat split;
    apply RegexFacts.disjoint_by_exploration; by vm_compute.
Qed.

(** ** Running the handlers *)

Lemma missing_present (ref : string) : ref <> "" -> missing (Some ref) = false.
Proof. intros H. simpl. by apply String.eqb_neq. Qed.

(** Unfolds one handler run down to the answers of the backend. *)
Ltac run_handler :=
  unfold run, try_catch, bind, request, fetch, prop, invalid_params, rethrow,
    await, ret, throw; simpl.

(** C1. [get_record] with a present reference: a reference matching the
    Feature pattern issues the feature query; otherwise one matching the
    Requirement pattern issues the requirement query; otherwise the call
    fails with [InvalidParams], naming the expected formats, and nothing is
    requested. When the issued query answers without a record the result is
    the text "No record found for reference ...", not an error. *)
Theorem get_record_dispatch (be : Backend) (args : ToolArguments) (ref : string) :
  reference args = Some ref -> ref <> "" ->
  let out := run (handleGetRecord args) be in
  let feature_call := mkGql getFeatureQuery {[ "id" := JStr ref ]} in
  let requirement_call := mkGql getRequirementQuery {[ "id" := JStr ref ]} in
  let not_found :=
    Return (text_result (Literal ("No record found for reference " +:+ ref))) in
  (test FEATURE_REF_REGEX ref = true ->
     out.2 = [GqlCall feature_call] /\
     forall data,
       client_request be 0 feature_call = Resolved data -> nullish data = false ->
       out.1 = if truthy (get data "feature")
               then Return (text_result (JSON_stringify (get data "feature")))
               else not_found) /\
  (test FEATURE_REF_REGEX ref = false -> test REQUIREMENT_REF_REGEX ref = true ->
     out.2 = [GqlCall requirement_call] /\
     forall data,
       client_request be 0 requirement_call = Resolved data -> nullish data = false ->
       out.1 = if truthy (get data "requirement")
               then Return (text_result (JSON_stringify (get data "requirement")))
               else not_found) /\
  (test FEATURE_REF_REGEX ref = false -> test REQUIREMENT_REF_REGEX ref = false ->
     out = (Throw (ExMcp (mkMcpError InvalidParams
              "Invalid reference number format. Expected DEVELOP-123 or ADT-123-1")),
            [])).
Proof.
  intros Href Hne. apply missing_present in Hne.
  unfold handleGetRecord. rewrite Href, Hne.
  change (default "" (Some ref)) with ref.
  split; [|split].
  - intros Hf. rewrite Hf. run_handler. split.
    + destruct (client_request be 0 _) as [data|e]; simpl.
      * destruct (nullish data); simpl; [done|]. by destruct (truthy _).
      * by destruct e.
    + intros data -> Hd. simpl. rewrite Hd. simpl. by destruct (truthy _).
  - intros Hf Hr. rewrite Hf, Hr. run_handler. split.
    + destruct (client_request be 0 _) as [data|e]; simpl.
      * destruct (nullish data); simpl; [done|]. by destruct (truthy _).
      * by destruct e.
    + intros data -> Hd. simpl. rewrite Hd. simpl. by destruct (truthy _).
  - intros Hf Hr. rewrite Hf, Hr. reflexivity.
Qed.

Lemma get_record_dispatch_witness :
  (run (handleGetRecord
          (mkArgs (Some "PROJ-1-1") None None None None None None None None))
       (scripted_client
          [Resolved (object [("requirement",
                              object [("referenceNum", JStr "PROJ-1-1")])])])).2
  = [GqlCall (mkGql getRequirementQuery {[ "id" := JStr "PROJ-1-1" ]})].
Proof.
  destruct (get_record_dispatch
              (scripted_client
                 [Resolved (object [("requirement",
                                     object [("referenceNum", JStr "PROJ-1-1")])])])
              (mkArgs (Some "PROJ-1-1") None None None None None None None None)
              "PROJ-1-1" eq_refl ltac:(discriminate)) as (_ & H & _).
  apply H; reflexivity.
Defined.

(** ** Failing calls end a run *)

Lemma clean_nil be : clean be [].
Proof. intros i c H. by rewrite lookup_nil in H. Qed.

Lemma clean_snoc be tr c :
  clean be tr -> call_failure be (List.length tr) c = None -> clean be (tr ++ [c]).
Proof.
  intros Hc Hf i c' H. apply lookup_app_Some in H as [H | [Hle H]].
  - by apply Hc.
  - destruct (i - List.length tr)%nat as [|n] eqn:E; simpl in H; [|done].
    injection H as <-. replace i with (List.length tr) by lia. done.
Qed.

Lemma clean_failure_last be pre c e i c' e' :
  clean be pre -> call_failure be (List.length pre) c = Some e ->
  (pre ++ [c]) !! i = Some c' -> call_failure be i c' = Some e' ->
  i = List.length pre /\ c' = c /\ e' = e.
Proof.
  intros Hc Hf Hi Hf'. apply lookup_app_Some in Hi as [H | [Hle H]].
  - rewrite (Hc _ _ H) in Hf'. done.
  - destruct (i - List.length pre)%nat as [|n] eqn:E; simpl in H; [|done].
    injection H as <-. assert (i = List.length pre) as -> by lia.
    split; [done|]. split; [done|]. congruence.
Qed.

Lemma ff_pure {A} (m : M A) : (forall be tr, (m be tr).2 = tr) -> fail_fast m.
Proof.
  intros Hm be tr Hc. exists []. rewrite app_nil_r. split; [apply Hm | by left].
Qed.

Lemma ff_ret {A} (a : A) : fail_fast (ret a).
Proof. by apply ff_pure. Qed.

Lemma ff_throw {A} e : fail_fast (@throw A e).
Proof. by apply ff_pure. Qed.

Lemma ff_diverge {A} : fail_fast (@diverge A).
Proof. by apply ff_pure. Qed.

Lemma ff_await {A} (p : Settled A) : fail_fast (await p).
Proof. destruct p; [apply ff_ret | apply ff_throw]. Qed.

Lemma ff_prop o k : fail_fast (prop o k).
Proof. unfold prop. destruct (nullish o); [apply ff_throw | apply ff_ret]. Qed.

Lemma ff_spread v : fail_fast (spread v).
Proof. destruct v; simpl; try apply ff_throw; apply ff_ret. Qed.

Lemma ff_opt_toLowerCase v : fail_fast (opt_toLowerCase v).
Proof. destruct v; simpl; try apply ff_throw; apply ff_ret. Qed.

Lemma ff_bind {A B} (m : M A) (k : A -> M B) :
  fail_fast m -> (forall a, fail_fast (k a)) -> fail_fast (bind m k).
Proof.
  intros Hm Hk be tr Hc. destruct (Hm be tr Hc) as (ext1 & Htr & Hcase).
  unfold bind. destruct (m be tr) as [r tr1] eqn:E. simpl in Htr. subst tr1.
  destruct r as [a|e|].
  - destruct Hcase as [Hclean | (pre & c & e & _ & _ & _ & Hthrow)]; [|done].
    destruct (Hk a be _ Hclean) as (ext2 & Htr2 & Hcase2).
    exists (ext1 ++ ext2)%list. rewrite app_assoc. split; [done|].
    destruct Hcase2 as [H2 | (pre & c & e & -> & Hpre & Hf & Hthrow)]; [by left|].
    right. exists (ext1 ++ pre)%list, c, e. rewrite !app_assoc. done.
  - exists ext1. split; [done|].
    destruct Hcase as [? | (pre & c & e0 & ? & ? & ? & Hthrow)]; [by left|].
    right. exists pre, c, e0. simpl in *. by simplify_eq.
  - exists ext1. split; [done|].
    destruct Hcase as [? | (pre & c & e0 & ? & ? & ? & Hthrow)]; [by left|].
    done.
Qed.

Lemma ff_request q vars : fail_fast (request q vars).
Proof.
  intros be tr Hc. exists [GqlCall (mkGql q vars)]. unfold request.
  destruct (client_request be (List.length tr) (mkGql q vars)) as [d|e] eqn:E; simpl.
  - split; [done|]. left. apply clean_snoc; [done|]. simpl. by rewrite E.
  - split; [done|]. right. exists [], (GqlCall (mkGql q vars)), e.
    rewrite app_nil_r. simpl. by rewrite E.
Qed.

Lemma ff_fetch_then {A} (r : FetchRequest) (k : Response -> M A) :
  (forall response,
      fetch_failure (method r) (Resolved response) = None -> fail_fast (k response)) ->
  (forall response e,
      fetch_failure (method r) (Resolved response) = Some e ->
      forall be tr, k response be tr = (Throw e, tr)) ->
  fail_fast (bind (fetch r) k).
Proof.
  intros Hok Hfail be tr Hc. unfold bind, fetch.
  destruct (global_fetch be (List.length tr) r) as [response|e] eqn:E; simpl.
  - destruct (fetch_failure (method r) (Resolved response)) as [e|] eqn:F.
    + rewrite (Hfail _ _ F). exists [FetchCall r]. split; [done|]. right.
      exists [], (FetchCall r), e. rewrite app_nil_r. simpl. by rewrite E.
    + assert (Hc' : clean be (tr ++ [FetchCall r])).
      { apply clean_snoc; [done|]. simpl. by rewrite E. }
      destruct (Hok _ F be _ Hc') as (ext & Htr & Hcase).
      exists (FetchCall r :: ext). rewrite Htr.
      rewrite <- !app_assoc in *. simpl in *. split; [done|].
      destruct Hcase as [? | (pre & c & e & -> & Hpre & Hf & Hthrow)]; [by left|].
      right. exists (FetchCall r :: pre), c, e.
      rewrite <- !app_assoc in *. simpl in *. done.
  - exists [FetchCall r]. split; [done|]. right.
    exists [], (FetchCall r), e. rewrite app_nil_r. simpl. by rewrite E.
Qed.

Lemma ff_fetch_get {A} ep (k : Body -> M A) :
  (forall data, fail_fast (k data)) ->
  fail_fast (response <- fetch (mkFetch ep GET None) ;;
             if negb (ok response) then throw (ExError (rest_error response))
             else data <- await (json response) ;; k data).
Proof.
  intros Hk. apply ff_fetch_then; simpl.
  - intros response. destruct (ok response); simpl; [|done].
    destruct (json response); [|done]. intros _. apply ff_bind; [apply ff_ret | done].
  - intros response e. destruct (ok response); simpl.
    + destruct (json response); [done|]. by intros [= ->].
    + by intros [= <-].
Qed.

Lemma ff_fetch_put {A} ep payload (k : Body -> M A) :
  (forall data, fail_fast (k data)) ->
  fail_fast (response <- fetch (mkFetch ep PUT payload) ;;
             if negb (ok response) then
               errorBody <- await (text response) ;;
               throw (ExError (rest_error response +:+ " - " +:+ errorBody))
             else data <- await (json response) ;; k data).
Proof.
  intros Hk. apply ff_fetch_then; simpl.
  - intros response. destruct (ok response); simpl.
    + destruct (json response); [|done]. intros _. apply ff_bind; [apply ff_ret | done].
    + by destruct (text response).
  - intros response e. destruct (ok response); simpl.
    + destruct (json response); [done|]. by intros [= ->].
    + destruct (text response); by intros [= <-].
Qed.

Lemma ff_while {S} fuel cond (loop_body : S -> M S) s :
  (forall s', fail_fast (loop_body s')) -> fail_fast (while fuel cond loop_body s).
Proof.
  intros Hb. revert s. induction fuel as [|fuel IH]; intros s; simpl.
  - destruct (cond s); [apply ff_diverge | apply ff_ret].
  - destruct (cond s); [|apply ff_ret]. apply ff_bind; [apply Hb | apply IH].
Qed.

Lemma ff_mapM {A B} (f : A -> M B) xs :
  (forall x, fail_fast (f x)) -> fail_fast (mapM f xs).
Proof.
  intros Hf. induction xs as [|x xs IH]; simpl; [apply ff_ret|].
  apply ff_bind; [apply Hf|]. intros y.
  apply ff_bind; [apply IH|]. intros ys. apply ff_ret.
Qed.

Lemma ff_filterM {A} (f : A -> M bool) xs :
  (forall x, fail_fast (f x)) -> fail_fast (filterM f xs).
Proof.
  intros Hf. induction xs as [|x xs IH]; simpl; [apply ff_ret|].
  apply ff_bind; [apply Hf|]. intros y.
  apply ff_bind; [apply IH|]. intros ys. apply ff_ret.
Qed.

(** Discharges [fail_fast] goals by the shape of the computation. *)
Ltac fail_fast_step :=
  first
    [ apply ff_ret | apply ff_throw | apply ff_diverge | apply ff_await
    | apply ff_prop | apply ff_spread | apply ff_opt_toLowerCase
    | apply ff_request | apply ff_fetch_get | apply ff_fetch_put
    | apply ff_while | apply ff_mapM | apply ff_filterM
    | apply ff_bind
    | match goal with
      | |- fail_fast (if ?b then _ else _) => destruct b
      | |- fail_fast (match ?x with _ => _ end) => destruct x
      | |- fail_fast (invalid_params _) => apply ff_throw
      | |- forall _, _ => intros
      end ].

Ltac fail_fast_auto := repeat fail_fast_step.

Lemma ff_find_product wanted products : fail_fast (find_product wanted products).
Proof.
  induction products as [|p rest IH]; simpl; [apply ff_ret|].
  apply ff_bind; [apply ff_prop|]. intros v.
  apply ff_bind; [apply ff_opt_toLowerCase|]. intros lowered.
  destruct lowered; try done. destruct (String.eqb _ _); [apply ff_ret | done].
Qed.

Lemma ff_fetch_page endpoint_of items_key s :
  fail_fast (fetch_page endpoint_of items_key s).
Proof. unfold fetch_page. fail_fast_auto. Qed.

Lemma ff_paginate fuel endpoint_of items_key :
  fail_fast (paginate fuel endpoint_of items_key).
Proof.
  unfold paginate. apply ff_bind; [|intros; apply ff_ret].
  apply ff_while. intros. apply ff_fetch_page.
Qed.

Lemma wrapped_rethrow {A} prefix e be tr :
  @rethrow A prefix e be tr = (Throw (wrapped prefix e), tr).
Proof. by destruct e. Qed.

Lemma at_boundary_try prefix (body : M ToolResult) :
  fail_fast body -> at_boundary prefix (try_catch body (rethrow prefix)).
Proof.
  intros Hff be res tr i c e Hrun Hi Hf.
  destruct (Hff be [] (clean_nil be)) as (ext & Htr & Hcase).
  unfold run, try_catch in Hrun. simpl in Htr.
  destruct (body be []) as [r tr0] eqn:E. simpl in *. subst tr0.
  destruct Hcase as [Hclean | (pre & c0 & e0 & -> & Hpre & Hf0 & ->)].
  - assert (tr = ext) as -> by (destruct r; [| rewrite wrapped_rethrow in Hrun |];
                                  congruence).
    rewrite (Hclean _ _ Hi) in Hf. done.
  - rewrite wrapped_rethrow in Hrun. injection Hrun as <- <-.
    destruct (clean_failure_last _ _ _ _ _ _ _ Hpre Hf0 Hi Hf) as (-> & -> & ->).
    split; [done|]. rewrite length_app. simpl. lia.
Qed.

Lemma at_boundary_invalid prefix msg : at_boundary prefix (invalid_params msg).
Proof. intros be res tr i c e [= <- <-] Hi. by rewrite lookup_nil in Hi. Qed.

(** Each handler validates its arguments, then runs a fail-fast body inside
    [try]/[catch]. *)
Ltac boundary :=
  repeat match goal with
         | |- at_boundary _ (if ?b then _ else _) => destruct b
         | |- at_boundary _ (invalid_params _) => apply at_boundary_invalid
         | |- at_boundary _ (try_catch _ _) => apply at_boundary_try
         end.

Lemma get_record_boundary args :
  at_boundary "Failed to fetch record: " (handleGetRecord args).
Proof. unfold handleGetRecord. boundary. fail_fast_auto. Qed.

Lemma get_page_boundary args :
  at_boundary "Failed to fetch page: " (handleGetPage args).
Proof. unfold handleGetPage. boundary. fail_fast_auto. Qed.

Lemma search_documents_boundary args :
  at_boundary "Failed to search documents: " (handleSearchDocuments args).
Proof. unfold handleSearchDocuments. boundary. fail_fast_auto. Qed.

Lemma introspect_feature_boundary :
  at_boundary "Failed to introspect: " handleIntrospectFeature.
Proof. unfold handleIntrospectFeature. boundary. fail_fast_auto. Qed.

Lemma get_record_rest_boundary args :
  at_boundary "Failed to fetch record via REST: " (handleGetRecordRest args).
Proof. unfold handleGetRecordRest. boundary. fail_fast_auto. Qed.

Lemma update_feature_boundary args :
  at_boundary "Failed to update feature: " (handleUpdateFeature args).
Proof. unfold handleUpdateFeature. boundary. fail_fast_auto. Qed.

Lemma list_features_boundary fuel args :
  at_boundary "Failed to list features in release: "
    (handleListFeaturesInRelease fuel args).
Proof.
  unfold handleListFeaturesInRelease. boundary.
  apply ff_bind; [apply ff_paginate | intros; apply ff_ret].
Qed.

Lemma list_releases_boundary fuel args :
  at_boundary "Failed to list releases: " (handleListReleases fuel args).
Proof.
  unfold handleListReleases. boundary.
  apply ff_bind; [apply ff_paginate|]. intros allProducts.
  apply ff_bind; [apply ff_find_product|]. intros product.
  destruct (negb (truthy product)).
  - fail_fast_auto.
  - apply ff_bind; [apply ff_prop|]. intros id.
    apply ff_bind; [apply ff_paginate|]. intros allReleases.
    apply ff_bind.
    + destruct (missing (name args)); [apply ff_ret|].
      apply ff_filterM. intros r. unfold name_matches. fail_fast_auto.
    + intros filtered. apply ff_bind.
      * apply ff_mapM. intros r. unfold format_release. fail_fast_auto.
      * fail_fast_auto.
Qed.

(** C8. In every operation of [handlers.ts], a call to a transport that
    fails ends the run at the operation boundary with a single error: an
    [McpError] is re-thrown as it is, any other failure becomes an
    [InternalError] whose message is the prefix of the operation followed
    by the message of the failure. *)
Theorem failures_wrapped_once
    (prefix : string) (h : nat -> ToolArguments -> M ToolResult) :
  In (prefix, h) operations ->
  forall fuel args be res tr i c e,
    run (h fuel args) be = (res, tr) ->
    tr !! i = Some c -> call_failure be i c = Some e ->
    List.length tr = S i /\
    match e with
    | ExMcp m => res = Throw (ExMcp m)
    | _ => res = Throw (ExMcp (mkMcpError InternalError (prefix +:+ errorMessage e)))
    end.
Proof.
  intros Hin fuel args be res tr i c e Hrun Hi Hf.
  assert (Hb : at_boundary prefix (h fuel args)).
  { unfold operations in Hin. simpl in Hin.
    repeat (destruct Hin as [[= <- <-] | Hin];
            [ first [ apply get_record_boundary | apply get_page_boundary
                    | apply search_documents_boundary
                    | apply introspect_feature_boundary
                    | apply get_record_rest_boundary | apply update_feature_boundary
                    | apply list_features_boundary | apply list_releases_boundary ]
            | ]).
    destruct Hin. }
  destruct (Hb _ _ _ _ _ _ Hrun Hi Hf) as [-> Hlen].
  split; [done|]. by destruct e.
Qed.

Lemma failures_wrapped_once_witness :
  let out :=
    run (handleGetRecord
           (mkArgs (Some "PROJ-1") None None None None None None None None))
        (scripted_client [Rejected (ExError "Network error")]) in
  List.length out.2 = 1%nat /\
  out.1 = Throw (ExMcp (mkMcpError InternalError
                          "Failed to fetch record: Network error")).
Proof.
  exact (failures_wrapped_once "Failed to fetch record: " (fun _ => handleGetRecord)
           ltac:(left; reflexivity) O
           (mkArgs (Some "PROJ-1") None None None None None None None None)
           (scripted_client [Rejected (ExError "Network error")])
           _ _ O (GqlCall (mkGql getFeatureQuery {[ "id" := JStr "PROJ-1" ]}))
           (ExError "Network error")
           (surjective_pairing _) eq_refl eq_refl).
Defined.

(** C7. In the listing operations ([list_features_in_release], and both
    loops of [list_releases]) a fetch that fails on any page ends the run
    there and then, with a single error; nothing of what the earlier pages
    delivered is returned. *)
Theorem listing_all_or_nothing fuel args be res tr i c e :
  run (handleListFeaturesInRelease fuel args) be = (res, tr) \/
  run (handleListReleases fuel args) be = (res, tr) ->
  tr !! i = Some c -> call_failure be i c = Some e ->
  List.length tr = S i /\
  (exists m, res = Throw (ExMcp m)) /\
  (forall result, res <> Return result).
Proof.
  intros Hrun Hi Hf.
  assert (H : res = Throw (wrapped "Failed to list features in release: " e)
              /\ List.length tr = S i \/
              res = Throw (wrapped "Failed to list releases: " e)
              /\ List.length tr = S i).
  { destruct Hrun as [Hrun | Hrun]; [left | right].
    - eapply list_features_boundary; eauto.
    - eapply list_releases_boundary; eauto. }
  destruct H as [[-> Hlen] | [-> Hlen]]; (split; [done|]); split; try done;
    destruct e; simpl; eauto.
Qed.

Lemma listing_all_or_nothing_witness :
  let out :=
    run (handleListFeaturesInRelease 5
           (mkArgs None None None None None (Some "PROJ-R-1") None None None))
        (scripted_fetch
           [ ok_response (mkBody {[ "features" := JArr [JStr "PROJ-1"] ]}
                            (Some (mkPagination (Some 2))));
             error_response 500 "Internal Server Error" "" ]) in
  List.length out.2 = 2%nat /\
  (exists m, out.1 = Throw (ExMcp m)) /\
  (forall result, out.1 <> Return result).
Proof.
  exact (listing_all_or_nothing 5
           (mkArgs None None None None None (Some "PROJ-R-1") None None None)
           (scripted_fetch
              [ ok_response (mkBody {[ "features" := JArr [JStr "PROJ-1"] ]}
                               (Some (mkPagination (Some 2))));
                error_response 500 "Internal Server Error" "" ])
           _ _ 1%nat
           (FetchCall (mkFetch (ReleaseFeaturesEndpoint "PROJ-R-1" 2 100) GET None))
           (ExError "REST API error: 500 Internal Server Error")
           (or_introl (surjective_pairing _)) eq_refl eq_refl).
Defined.

(** ** The pagination loop *)

Section PagingFacts.

Variables (be : Backend) (endpoint_of : Z -> Endpoint) (items_key : string)
          (base : nat).

Local Abbreviation request_of := (page_request endpoint_of).
Local Abbreviation data_of := (page_data be endpoint_of base).
Local Abbreviation items_of := (received be endpoint_of items_key base).
Local Abbreviation complete := (page_complete be endpoint_of items_key base).
Local Abbreviation total_after := (running_total be endpoint_of base).
Local Abbreviation loop fuel :=
  (while fuel (fun s => currentPage s <=? totalPages s)
     (fetch_page endpoint_of items_key)).

(** One turn of the loop: the request for the current page is issued, and
    when the turn completes the page is added and the count updated. *)
Lemma fetch_page_run k acc total tr :
  List.length tr = (base + k)%nat ->
  let out := fetch_page endpoint_of items_key
               (mkPages acc (Z.of_nat k + 1) total) be tr in
  out.2 = tr ++ [FetchCall (request_of k)] /\
  match out.1 with
  | Return s' =>
      complete k = true /\
      exists data,
        data_of k = Some data /\
        s' = mkPages (acc ++ items_of k) (Z.of_nat (S k) + 1)
               (match pagination data with
                | Some p => declared_total p
                | None => total
                end)
  | Throw _ => complete k = false
  | Diverge => False
  end.
Proof.
  intros Hlen.
  unfold fetch_page, bind, fetch, received, page_complete, page_data, page_request.
  simpl. rewrite Hlen.
  destruct (global_fetch be (base + k) _) as [response|e]; simpl; [|done].
  destruct (ok response); simpl; [|done].
  destruct (json response) as [data|e]; simpl; [|done].
  assert (Hpage : Z.of_nat k + 1 + 1 = Z.of_nat (S k) + 1) by lia.
  destruct (props data !! items_key) as [items|]; simpl.
  - destruct items as [ | | [] | n | s | l | m ]; simpl;
      try destruct (n =? 0) eqn:En; try destruct (String.eqb s "") eqn:E;
      unfold spreadable; simpl; rewrite ?En, ?E; simpl;
      try (apply String.eqb_eq in E; subst; simpl);
      rewrite ?app_nil_r, ?Hpage; eauto.
  - rewrite app_nil_r, Hpage. eauto.
Qed.

(** The whole loop, entered before page [k + 1] with the count in force:
    it fetches pages [k + 1], ..., [k + n] in order, each under the loop
    condition, and when it completes it holds what these pages delivered. *)
Lemma while_pages fuel : forall k acc tr,
  List.length tr = (base + k)%nat ->
  let out := loop fuel (mkPages acc (Z.of_nat k + 1) (total_after k)) be tr in
  exists n,
    out.2 = tr ++ map (fun j => FetchCall (request_of j)) (seq k n) /\
    (forall j, (k <= j < k + n)%nat -> Z.of_nat j + 1 <= total_after j) /\
    match out.1 with
    | Return s' =>
        s' = mkPages (acc ++ concat (map items_of (seq k n)))
               (Z.of_nat (k + n) + 1) (total_after (k + n)) /\
        total_after (k + n) < Z.of_nat (k + n) + 1 /\
        (forall j, (k <= j < k + n)%nat -> complete j = true)
    | Throw _ => exists n', n = S n' /\ complete (k + n') = false
    | Diverge => n = fuel /\ Z.of_nat (k + n) + 1 <= total_after (k + n)
    end.
Proof.
  assert (Hstop : forall k acc tr,
    (Z.of_nat k + 1 <=? total_after k) = false ->
    exists n,
      tr = tr ++ map (fun j => FetchCall (request_of j)) (seq k n) /\
      (forall j, (k <= j < k + n)%nat -> Z.of_nat j + 1 <= total_after j) /\
      mkPages acc (Z.of_nat k + 1) (total_after k)
      = mkPages (acc ++ concat (map items_of (seq k n)))
          (Z.of_nat (k + n) + 1) (total_after (k + n)) /\
      total_after (k + n) < Z.of_nat (k + n) + 1 /\
      (forall j, (k <= j < k + n)%nat -> complete j = true)).
  { intros k acc tr Hc. exists O. simpl. rewrite !app_nil_r, Nat.add_0_r.
    apply Z.leb_gt in Hc. repeat split; try done; lia. }
  induction fuel as [|fuel IH]; intros k acc tr Hlen; simpl.
  - destruct (Z.of_nat k + 1 <=? total_after k) eqn:Hc.
    + exists O. simpl. rewrite app_nil_r, Nat.add_0_r. apply Z.leb_le in Hc.
      repeat split; try done; lia.
    + by apply Hstop.
  - destruct (Z.of_nat k + 1 <=? total_after k) eqn:Hc; [|by apply Hstop].
    apply Z.leb_le in Hc. unfold bind.
    pose proof (fetch_page_run k acc (total_after k) tr Hlen) as [Htr Hres].
    simpl in Htr, Hres.
    destruct (fetch_page endpoint_of items_key _ be tr) as [r tr1].
    simpl in Htr, Hres. subst tr1. destruct r as [s1|e|]; [| |done].
    + destruct Hres as (Hcomplete & data & Hdata & ->).
      assert (Htotal : match pagination data with
                       | Some p => declared_total p
                       | None => total_after k
                       end = total_after (S k)).
      { simpl. unfold page_data in Hdata. unfold page_data.
        by rewrite Hdata. }
      rewrite Htotal.
      assert (Hlen' : List.length (tr ++ [FetchCall (request_of k)])
                      = (base + S k)%nat).
      { rewrite length_app. simpl. lia. }
      destruct (IH (S k) (acc ++ items_of k) _ Hlen') as (n & Htr & Hcond & Hres).
      exists (S n). change (seq k (S n)) with (k :: seq (S k) n).
      rewrite !map_cons, concat_cons, Htr, <- app_assoc.
      split; [done|].
      replace (k + S n)%nat with (S k + n)%nat by lia. split.
      * intros j Hj. destruct (decide (j = k)) as [->|Hne]; [done|].
        apply Hcond. lia.
      * destruct (loop fuel _ be _).1 as [s'|e|].
        -- destruct Hres as (-> & Hlt & Hall). rewrite <- app_assoc.
           split; [done|]. split; [done|].
           intros j Hj. destruct (decide (j = k)) as [->|Hne]; [done|].
           apply Hall. lia.
        -- destruct Hres as (n' & -> & Hn'). exists (S n'). split; [done|].
           by replace (k + S n')%nat with (S k + n')%nat by lia.
        -- destruct Hres as [-> Hgo]. done.
    + exists 1%nat. simpl. split; [done|]. split.
      * intros j Hj. by replace j with k by lia.
      * exists O. by rewrite Nat.add_0_r.
Qed.

End PagingFacts.

(** ** [list_features_in_release] *)

(** What a run of [handleListFeaturesInRelease] looks like, however it
    ends: pages 1 to [n] are requested in order, each under the loop
    condition. *)
Lemma list_features_run fuel be args rel :
  releaseReference args = Some rel -> rel <> "" ->
  let ep := fun page => ReleaseFeaturesEndpoint rel page (default 100 (perPage args)) in
  let out := run (handleListFeaturesInRelease fuel args) be in
  exists n,
    out.2 = map (fun j => FetchCall (page_request ep j)) (seq 0 n) /\
    (forall j, (j < n)%nat -> Z.of_nat j + 1 <= running_total be ep 0 j) /\
    match out.1 with
    | Return res =>
        res = text_result (JSON_stringify
                (object
                   [ ("total_count",
                      JNum (Z.of_nat (List.length
                              (concat (map (received be ep "features" 0) (seq 0 n))))));
                     ("features",
                      JArr (concat (map (received be ep "features" 0) (seq 0 n)))) ]))
        /\ running_total be ep 0 n < Z.of_nat n + 1
        /\ (forall j, (j < n)%nat -> page_complete be ep "features" 0 j = true)
    | Throw _ => exists n', n = S n' /\ page_complete be ep "features" 0 n' = false
    | Diverge => n = fuel /\ Z.of_nat n + 1 <= running_total be ep 0 n
    end.
Proof.
  intros Hrel Hne ep. apply missing_present in Hne.
  unfold handleListFeaturesInRelease. rewrite Hrel, Hne.
  change (default "" (Some rel)) with rel. fold ep.
  unfold run, try_catch, paginate, bind.
  pose proof (while_pages be ep "features" 0 fuel 0 [] [] eq_refl) as (n & Htr & Hcond & Hres).
  change (Z.of_nat 0 + 1) with 1 in Htr, Hres.
  change (running_total be ep 0 0) with 1 in Htr, Hres.
  cbv zeta in Htr, Hres. simpl in Htr.
  destruct (while fuel _ _ _ be []) as [r tr]. simpl in Htr, Hres. subst tr.
  exists n. destruct r as [s'|e|]; simpl.
  - destruct Hres as (-> & Hlt & Hall). simpl.
    repeat split; try done; intros; [apply Hcond | apply Hall]; lia.
  - rewrite wrapped_rethrow. simpl.
    repeat split; try done. intros; apply Hcond; lia.
  - repeat split; try tauto. intros; apply Hcond; lia.
Qed.

Lemma length_concat_sum {A} (ls : list (list A)) :
  List.length (concat ls) = sum_list (map (@List.length A) ls).
Proof.
  induction ls as [|l ls IH]; simpl; [done|]. rewrite length_app, IH. done.
Qed.

(** C5. [list_features_in_release] starts at page 1 and goes on while the
    page number is at most the declared total-page count; the reported
    [total_count] is the number of items the fetched pages delivered, the
    sum of the lengths of their arrays. Three pages that each declare three
    pages and carry one item give three fetches and three items; a first
    page that declares one page gives one fetch, whatever [perPage] is. *)
Theorem pagination_counts_received fuel be args rel :
  releaseReference args = Some rel -> rel <> "" ->
  let ep := fun page => ReleaseFeaturesEndpoint rel page (default 100 (perPage args)) in
  let out := run (handleListFeaturesInRelease fuel args) be in
  let page := fun j => FetchCall (mkFetch (ep (Z.of_nat j + 1)) GET None) in
  let items_of := received be ep "features" 0 in
  (forall res, out.1 = Return res ->
     exists n,
       (1 <= n)%nat /\
       out.2 = map page (seq 0 n) /\
       (forall j, (j < n)%nat -> Z.of_nat j + 1 <= running_total be ep 0 j) /\
       running_total be ep 0 n < Z.of_nat n + 1 /\
       res = text_result (JSON_stringify
               (object
                  [ ("total_count",
                     JNum (Z.of_nat
                             (sum_list (map (fun j => List.length (items_of j))
                                          (seq 0 n)))));
                    ("features", JArr (concat (map items_of (seq 0 n)))) ]))) /\
  (forall d0 d1 d2 x0 x1 x2,
     page_data be ep 0 0 = Some d0 ->
     page_data be ep 0 1 = Some d1 ->
     page_data be ep 0 2 = Some d2 ->
     props d0 !! "features" = Some (JArr [x0]) ->
     props d1 !! "features" = Some (JArr [x1]) ->
     props d2 !! "features" = Some (JArr [x2]) ->
     pagination d0 = Some (mkPagination (Some 3)) ->
     pagination d1 = Some (mkPagination (Some 3)) ->
     pagination d2 = Some (mkPagination (Some 3)) ->
     (3 <= fuel)%nat ->
     out = (Return (text_result (JSON_stringify
                      (object [ ("total_count", JNum 3);
                                ("features", JArr [x0; x1; x2]) ]))),
            [page 0%nat; page 1%nat; page 2%nat])) /\
  (forall d0,
     page_data be ep 0 0 = Some d0 ->
     pagination d0 = Some (mkPagination (Some 1)) ->
     (1 <= fuel)%nat ->
     out.2 = [page 0%nat]).
Proof.
  intros Hrel Hne ep out page items_of.
  destruct (list_features_run fuel be args rel Hrel Hne) as (n & Htr & Hcond & Hres).
  fold ep in Htr, Hcond, Hres. fold out in Htr, Hres.
  split; [|split].
  - intros res Hret. rewrite Hret in Hres. destruct Hres as (-> & Hlt & _).
    exists n. split.
    { destruct n; [|lia]. simpl in Hlt. lia. }
    split; [done|]. split; [done|]. split; [done|].
    by rewrite length_concat_sum, map_map.
  - intros d0 d1 d2 x0 x1 x2 D0 D1 D2 F0 F1 F2 P0 P1 P2 Hfuel.
    assert (T1 : running_total be ep 0 1 = 3) by (simpl; by rewrite D0, P0).
    assert (T2 : running_total be ep 0 2 = 3) by (simpl; by rewrite D1, P1).
    assert (T3 : running_total be ep 0 3 = 3) by (simpl; by rewrite D2, P2).
    assert (C0 : page_complete be ep "features" 0 0 = true)
      by (unfold page_complete; by rewrite D0, F0).
    assert (C1 : page_complete be ep "features" 0 1 = true)
      by (unfold page_complete; by rewrite D1, F1).
    assert (C2 : page_complete be ep "features" 0 2 = true)
      by (unfold page_complete; by rewrite D2, F2).
    assert (Hn : (n <= 3)%nat).
    { destruct (decide (n <= 3)%nat); [done|].
      specialize (Hcond 3%nat ltac:(lia)). rewrite T3 in Hcond. lia. }
    assert (Hitems : concat (map items_of (seq 0 3)) = [x0; x1; x2]).
    { subst items_of. unfold received. simpl. by rewrite D0, D1, D2, F0, F1, F2. }
    destruct out as [r tr]. simpl in Htr, Hres. subst tr.
    destruct r as [res|e|].
    + destruct Hres as (-> & Hlt & _).
      assert (n = 3)%nat as ->.
      { destruct n as [|[|[|[|n]]]];
          [ change (running_total be ep 0 0) with 1 in Hlt; lia
          | rewrite T1 in Hlt; lia | rewrite T2 in Hlt; lia | done | lia ]. }
      fold items_of. rewrite Hitems. done.
    + destruct Hres as (n' & -> & Hn').
      destruct n' as [|[|[|]]]; try lia; congruence.
    + destruct Hres as [-> Hgo]. assert (fuel = 3)%nat as -> by lia.
      rewrite T3 in Hgo. lia.
  - intros d0 D0 P0 Hfuel.
    assert (T1 : running_total be ep 0 1 = 1) by (simpl; by rewrite D0, P0).
    rewrite Htr.
    assert (n = 1)%nat as ->; [|done].
    destruct (decide (n <= 1)%nat) as [Hle|Hgt].
    + destruct n as [|n]; [|lia]. destruct out.1.
      * destruct Hres as (_ & Hlt & _). simpl in Hlt. lia.
      * destruct Hres as (n' & ? & _). lia.
      * lia.
    + specialize (Hcond 1%nat ltac:(lia)). rewrite T1 in Hcond. lia.
Qed.

Lemma pagination_counts_received_witness :
  run (handleListFeaturesInRelease 5 (release_args "PROJ-R-1" (Some 50))) three_pages
  = (Return (text_result (JSON_stringify
               (object [ ("total_count", JNum 3);
                         ("features",
                          JArr [JStr "PROJ-1"; JStr "PROJ-2"; JStr "PROJ-3"]) ]))),
     [ FetchCall (mkFetch (ReleaseFeaturesEndpoint "PROJ-R-1" 1 50) GET None);
       FetchCall (mkFetch (ReleaseFeaturesEndpoint "PROJ-R-1" 2 50) GET None);
       FetchCall (mkFetch (ReleaseFeaturesEndpoint "PROJ-R-1" 3 50) GET None) ]).
Proof.
  destruct (pagination_counts_received 5 three_pages
              (release_args "PROJ-R-1" (Some 50)) "PROJ-R-1"
              eq_refl ltac:(discriminate)) as (_ & H & _).
  apply (H (mkBody {[ "features" := JArr [JStr "PROJ-1"] ]} (Some (mkPagination (Some 3))))
           (mkBody {[ "features" := JArr [JStr "PROJ-2"] ]} (Some (mkPagination (Some 3))))
           (mkBody {[ "features" := JArr [JStr "PROJ-3"] ]} (Some (mkPagination (Some 3))))
           (JStr "PROJ-1") (JStr "PROJ-2") (JStr "PROJ-3"));
    first [reflexivity | lia].
Defined.

(** C6, as stated, fails: the second response below carries no count at
    all, and the pagination does not end with it; the third page is still
    fetched, under the count the first response declared. *)
Lemma omitted_count_counterexample :
  ~ (forall fuel be args rel k d,
        releaseReference args = Some rel -> rel <> "" ->
        let ep := fun page =>
                    ReleaseFeaturesEndpoint rel page (default 100 (perPage args)) in
        let out := run (handleListFeaturesInRelease fuel args) be in
        (k < List.length out.2)%nat ->
        page_data be ep 0 k = Some d ->
        (pagination d = None \/
         exists p, pagination d = Some p /\
                   (total_pages p = None \/ total_pages p = Some 0)) ->
        List.length out.2 = S k).
Proof.
  intros H.
  specialize (H 10%nat second_page_silent (release_args "PROJ-R-1" None) "PROJ-R-1"
                1%nat (mkBody {[ "features" := JArr [JStr "PROJ-2"] ]} None)
                eq_refl ltac:(discriminate)).
  simpl in H. specialize (H ltac:(vm_compute; lia) eq_refl (or_introl eq_refl)).
  vm_compute in H. discriminate.
Qed.

(** C6, amended. A response that carries a [pagination] object sets the
    total-page count afresh, to 1 when the object has no [total_pages] or
    reports 0; a response without a [pagination] object leaves the count as
    it was (1 before the first response). So a response whose [pagination]
    reports 0 or has no [total_pages] ends the pagination with that fetch,
    a first response without [pagination] gives exactly one fetch, and the
    pagination goes on after a later response without [pagination] only
    within the count the earlier responses left. *)
Theorem pagination_total_pages fuel be args rel :
  releaseReference args = Some rel -> rel <> "" ->
  let ep := fun page => ReleaseFeaturesEndpoint rel page (default 100 (perPage args)) in
  let out := run (handleListFeaturesInRelease fuel args) be in
  (forall k d p,
     (k < List.length out.2)%nat ->
     page_data be ep 0 k = Some d -> pagination d = Some p ->
     total_pages p = None \/ total_pages p = Some 0 ->
     List.length out.2 = S k) /\
  (forall d,
     (1 <= fuel)%nat ->
     page_data be ep 0 0 = Some d -> pagination d = None ->
     List.length out.2 = 1%nat) /\
  (forall k d,
     (S k < List.length out.2)%nat ->
     page_data be ep 0 k = Some d -> pagination d = None ->
     Z.of_nat k + 2 <= running_total be ep 0 k).
Proof.
  intros Hrel Hne ep out.
  destruct (list_features_run fuel be args rel Hrel Hne) as (n & Htr & Hcond & Hres).
  fold ep in Htr, Hcond, Hres. fold out in Htr, Hres.
  assert (Hlen : List.length out.2 = n).
  { by rewrite Htr, length_map, length_seq. }
  rewrite Hlen. split; [|split].
  - intros k d p Hk D P Hp.
    assert (T : running_total be ep 0 (S k) = 1).
    { simpl. rewrite D, P. unfold declared_total. by destruct Hp as [-> | ->]. }
    destruct (decide (n = S k)) as [|Hne']; [done|].
    specialize (Hcond (S k) ltac:(lia)). rewrite T in Hcond. lia.
  - intros d Hfuel D P.
    assert (T : running_total be ep 0 1 = 1) by (simpl; by rewrite D, P).
    destruct (decide (n <= 1)%nat) as [Hle|Hgt].
    + destruct n as [|n]; [|lia]. destruct out.1.
      * destruct Hres as (_ & Hlt & _). simpl in Hlt. lia.
      * destruct Hres as (n' & ? & _). lia.
      * lia.
    + specialize (Hcond 1%nat ltac:(lia)). rewrite T in Hcond. lia.
  - intros k d Hk D P.
    specialize (Hcond (S k) Hk). simpl in Hcond. rewrite D, P in Hcond. lia.
Qed.

Lemma pagination_total_pages_witness :
  List.length
    (run (handleListFeaturesInRelease 5 (release_args "PROJ-R-1" None))
         (scripted_fetch
            [ ok_response (mkBody {[ "features" := JArr [JStr "PROJ-1"] ]}
                             (Some (mkPagination (Some 0))));
              one_feature "PROJ-2" None ])).2
  = 1%nat.
Proof.
  destruct (pagination_total_pages 5
              (scripted_fetch
                 [ ok_response (mkBody {[ "features" := JArr [JStr "PROJ-1"] ]}
                                  (Some (mkPagination (Some 0))));
                   one_feature "PROJ-2" None ])
              (release_args "PROJ-R-1" None) "PROJ-R-1"
              eq_refl ltac:(discriminate)) as (H & _ & _).
  apply (H O (mkBody {[ "features" := JArr [JStr "PROJ-1"] ]}
                (Some (mkPagination (Some 0))))
           (mkPagination (Some 0)));
    [vm_compute; lia | reflexivity | reflexivity | right; reflexivity].
Defined.

(** ** Pages without [features] *)






(** ** [update_feature] *)

Lemma array_includes_spec names key : array_includes names key = true <-> key ∈ names.
Proof.
  unfold array_includes. rewrite existsb_exists, list_elem_of_In. split.
  - intros (x & Hin & Heq). apply String.eqb_eq in Heq. by subst.
  - intros Hin. exists key. split; [done|]. apply String.eqb_refl.
Qed.

(** The loop sorts every entry by membership of its key in
    [standardFieldNames], whatever was sorted before; an entry under
    ["__proto__"] is left out. *)
Lemma partition_fold entries : forall acc,
  NoDup entries.*1 ->
  standardFields (fold_left partition_step entries acc)
  = filter (fun kv => kv.1 ∈ standardFieldNames) (list_to_map entries : gmap string JsValue)
    ∪ standardFields acc /\
  customFields (fold_left partition_step entries acc)
  = filter (fun kv => (kv.1 ∉ standardFieldNames) /\ kv.1 <> "__proto__")
      (list_to_map entries : gmap string JsValue)
    ∪ customFields acc.
Proof.
  induction entries as [|[key value] entries IH]; intros acc Hnd.
  - simpl. rewrite !map_filter_empty, !(left_id_L ∅ (∪)). done.
  - rewrite fmap_cons in Hnd. apply NoDup_cons in Hnd as [Hfresh Hnd].
    apply not_elem_of_list_to_map_1 in Hfresh.
    rewrite list_to_map_cons. cbn [fold_left].
    destruct (IH (partition_step acc (key, value)) Hnd) as [-> ->].
    unfold partition_step.
    destruct (array_includes standardFieldNames key) eqn:E; simpl.
    + apply array_includes_spec in E. split.
      * rewrite map_filter_insert_True by done.
        rewrite <- insert_union_l. rewrite insert_union_r; [done|].
        by apply map_lookup_filter_None_2; left.
      * rewrite map_filter_insert_not by (simpl; intros y [Hy _]; by apply Hy).
        done.
    + assert (Hnot : key ∉ standardFieldNames).
      { intros Hin. apply array_includes_spec in Hin. congruence. }
      destruct (String.eqb key "__proto__") eqn:P; simpl.
      * apply String.eqb_eq in P. split.
        -- rewrite map_filter_insert_not by (simpl; intros y Hy; done). done.
        -- rewrite map_filter_insert_not by (simpl; intros y [_ Hy]; by apply Hy).
           done.
      * apply String.eqb_neq in P. split.
        -- rewrite map_filter_insert_not by (simpl; intros y Hy; done). done.
        -- rewrite map_filter_insert_True by done.
           rewrite <- insert_union_l. rewrite insert_union_r; [done|].
           by apply map_lookup_filter_None_2; left.
Qed.

Lemma feature_payload_spec entries :
  NoDup entries.*1 ->
  let mapping : gmap string JsValue := list_to_map entries in
  let standard := filter (fun kv => kv.1 ∈ standardFieldNames) mapping in
  let extension :=
    filter (fun kv => (kv.1 ∉ standardFieldNames) /\ kv.1 <> "__proto__") mapping in
  feature_payload entries
  = JObj {[ "feature" :=
              JObj (if decide (extension = ∅) then standard
                    else <["custom_fields" := JObj extension]> standard) ]}.
Proof.
  intros Hnd mapping standard extension. unfold feature_payload, partition_fields.
  destruct (partition_fold entries (mkPartition ∅ ∅) Hnd) as [-> ->]. simpl.
  rewrite !(right_id_L ∅ (∪)). fold mapping. fold standard. fold extension.
  destruct (decide (extension = ∅)) as [He|He].
  - rewrite He, map_size_empty. done.
  - apply map_size_non_empty_iff in He.
    destruct (0 <? Z.of_nat (size extension)) eqn:E; [done|].
    apply Z.ltb_ge in E. lia.
Qed.

Lemma no_fields_present entries : entries <> [] -> no_fields (Some entries) = false.
Proof. intros H. destruct entries; [done|]. reflexivity. Qed.

(** C3, at the input where the code departs from it. The claim sends
    every key that is not a standard name to [custom_fields]. For the
    fields [{"__proto__": "x"}] the code sends [{feature: {}}], without
    [custom_fields]; next to other custom fields, whatever comes under
    ["__proto__"] is left out of [custom_fields]. *)
Theorem update_feature_proto_key :
  (run (handleUpdateFeature
          (update_args (Some "PROJ-1") (Some [ ("__proto__", JStr "x") ])))
       (scripted_fetch [ ok_response (mkBody ∅ None) ])).2
  = [FetchCall (mkFetch (FeatureEndpoint "PROJ-1") PUT
                  (Some (object [ ("feature", object []) ])))] /\
  (run (handleUpdateFeature
          (update_args (Some "PROJ-1")
             (Some [ ("name", JStr "New Name");
                     ("__proto__", object [ ("release_stage", JStr "GA") ]);
                     ("go_live_date", JStr "2024-06-01") ])))
       (scripted_fetch [ ok_response (mkBody ∅ None) ])).2
  = [FetchCall
       (mkFetch (FeatureEndpoint "PROJ-1") PUT
          (Some (object
                   [ ("feature",
                      object
                        [ ("name", JStr "New Name");
                          ("custom_fields",
                           object [ ("go_live_date", JStr "2024-06-01") ]) ]) ])))].
Proof. split; vm_compute; reflexivity. Qed.

(** X22. For a non-empty [fields] mapping, [update_feature] sends
    [{feature: {...standard, custom_fields: {...extension}}}]: [standard]
    holds the entries whose key is one of the 25 standard names, with their
    values; [extension] holds the others, except an entry under
    ["__proto__"], so all the others when no key is ["__proto__"];
    [custom_fields] is there only when [extension] is not empty; and the
    order in which the entries are enumerated does not matter. *)
Theorem update_feature_payload be args ref entries :
  reference args = Some ref -> ref <> "" ->
  fields args = Some entries -> entries <> [] -> NoDup entries.*1 ->
  let mapping : gmap string JsValue := list_to_map entries in
  let standard := filter (fun kv => kv.1 ∈ standardFieldNames) mapping in
  let extension :=
    filter (fun kv => (kv.1 ∉ standardFieldNames) /\ kv.1 <> "__proto__") mapping in
  let feature :=
    if decide (extension = ∅) then standard
    else <["custom_fields" := JObj extension]> standard in
  List.length standardFieldNames = 25%nat /\
  (run (handleUpdateFeature args) be).2
  = [FetchCall (mkFetch (FeatureEndpoint ref) PUT
                  (Some (JObj {[ "feature" := JObj feature ]})))] /\
  feature !! "custom_fields"
  = (if decide (extension = ∅) then None else Some (JObj extension)) /\
  (forall key, key <> "custom_fields" -> feature !! key = standard !! key) /\
  (mapping !! "__proto__" = None ->
   extension = filter (fun kv => kv.1 ∉ standardFieldNames) mapping) /\
  (forall entries', entries ≡ₚ entries' ->
                    feature_payload entries' = feature_payload entries).
Proof.
  intros Href Hne Hfields Hentries Hnd mapping standard extension feature.
  apply missing_present in Hne. apply no_fields_present in Hentries.
  assert (Hfresh : standard !! "custom_fields" = None).
  { apply map_lookup_filter_None_2. right. intros x _ Hin. simpl in Hin.
    apply array_includes_spec in Hin. vm_compute in Hin. discriminate. }
  split; [reflexivity|]. split; [|split; [|split; [|split]]].
  - unfold handleUpdateFeature. rewrite Href, Hne, Hfields, Hentries.
    change (default "" (Some ref)) with ref.
    change (default [] (Some entries)) with entries.
    rewrite (feature_payload_spec entries Hnd).
    fold mapping. fold standard. fold extension. fold feature.
    run_handler.
    destruct (global_fetch be 0 _) as [response|e]; simpl; [|by destruct e].
    destruct (ok response); simpl.
    + destruct (json response) as [data|e]; simpl; [done | by destruct e].
    + destruct (text response) as [errorBody|e]; simpl; [done | by destruct e].
  - subst feature. destruct (decide (extension = ∅)); [done|].
    apply lookup_insert_eq.
  - intros key Hkey. subst feature. destruct (decide (extension = ∅)); [done|].
    by apply lookup_insert_ne.
  - intros Hproto. subst extension. apply map_filter_ext. intros key value Hkv.
    simpl. split; [tauto|]. intros Hk. split; [done|]. intros ->. congruence.
  - intros entries' Hperm.
    assert (Hnd' : NoDup entries'.*1) by (by rewrite <- Hperm).
    rewrite (feature_payload_spec entries Hnd), (feature_payload_spec entries' Hnd').
    by rewrite (list_to_map_proper entries entries' Hnd Hperm).
Qed.

Lemma update_feature_payload_witness :
  (run (handleUpdateFeature (update_args (Some "PROJ-1") (Some mixed_fields)))
       (scripted_fetch [ ok_response (mkBody ∅ None) ])).2
  = [FetchCall
       (mkFetch (FeatureEndpoint "PROJ-1") PUT
          (Some (object
                   [ ("feature",
                      object
                        [ ("name", JStr "New Name"); ("due_date", JStr "2024-12-31");
                          ("custom_fields",
                           object [ ("release_stage", JStr "GA");
                                    ("go_live_date", JStr "2024-06-01") ]) ]) ])))].
Proof.
  destruct (update_feature_payload
              (scripted_fetch [ ok_response (mkBody ∅ None) ])
              (update_args (Some "PROJ-1") (Some mixed_fields)) "PROJ-1" mixed_fields
              eq_refl ltac:(discriminate) eq_refl ltac:(discriminate)
              ltac:(compute_done))
    as (_ & H & _).
  etransitivity; [exact H|]. vm_compute. reflexivity.
Defined.



(** ** [update_release] *)

(** C9. The service provides no [update_release] operation. The tool list
    does not name it, and a [tools/call] for it, with a release reference
    and a non-empty [fields] mapping or with anything else, is refused
    with [MethodNotFound] before anything is requested: no [PUT] is
    issued and no [{message, release}] result is returned. *)
Theorem update_release_refused fuel (arguments : option ToolArguments) be :
  ("update_release" ∉ map tool_name tools) /\
  run (callToolRequest fuel (mkRequest "update_release" arguments)) be
  = (Throw (ExMcp (mkMcpError MethodNotFound "Unknown tool: update_release")), []) /\
  run (callToolRequest fuel
         (mkRequest "update_release"
            (Some (update_args (Some "PROJ-R-1")
                     (Some [ ("name", JStr "Q1 2024") ]))))) be
  = (Throw (ExMcp (mkMcpError MethodNotFound "Unknown tool: update_release")), []).
Proof.
  split; [|split].
  - intros H. repeat (apply elem_of_cons in H as [H|H]; [discriminate|]).
    by apply elem_of_nil in H.
  - reflexivity.
  - reflexivity.
Qed.

(** ** Scenarios of the test suite *)

Example get_record_not_found :
  run (handleGetRecord (update_args (Some "PROJ-999") None))
      (scripted_client [Resolved (object [("feature", JNull)])])
  = (Return (text_result (Literal "No record found for reference PROJ-999")),
     [GqlCall (mkGql getFeatureQuery {[ "id" := JStr "PROJ-999" ]})]).
Proof. reflexivity. Qed.

Example get_record_lowercase :
  run (handleGetRecord (update_args (Some "proj-1") None)) (scripted_client [])
  = (Throw (ExMcp (mkMcpError InvalidParams
              "Invalid reference number format. Expected DEVELOP-123 or ADT-123-1")),
     []).
Proof. reflexivity. Qed.

Example get_record_rethrows_mcp_error :
  run (handleGetRecord (update_args (Some "PROJ-1") None))
      (scripted_client
         [Rejected (ExMcp (mkMcpError InvalidRequest "Custom MCP error"))])
  = (Throw (ExMcp (mkMcpError InvalidRequest "Custom MCP error")),
     [GqlCall (mkGql getFeatureQuery {[ "id" := JStr "PROJ-1" ]})]).
Proof. reflexivity. Qed.

Example get_record_wraps_thrown_string :
  (run (handleGetRecord (update_args (Some "PROJ-1") None))
       (scripted_client [Rejected (ExValue (JStr "String error"))])).1
  = Throw (ExMcp (mkMcpError InternalError "Failed to fetch record: String error")).
Proof. reflexivity. Qed.

Example update_feature_standard_only :
  fetches (run (handleUpdateFeature
                  (update_args (Some "PROJ-1")
                     (Some [ ("name", JStr "Updated Feature");
                             ("start_date", JStr "2024-03-01") ])))
               (scripted_fetch [ ok_response (mkBody ∅ None) ])).2
  = [ mkFetch (FeatureEndpoint "PROJ-1") PUT
        (Some (object [ ("feature",
                         object [ ("name", JStr "Updated Feature");
                                  ("start_date", JStr "2024-03-01") ]) ])) ].
Proof. vm_compute. reflexivity. Qed.

Example update_feature_api_error :
  (run (handleUpdateFeature (update_args (Some "PROJ-1") (Some [("name", JStr "Test")])))
       (scripted_fetch [ error_response 422 "Unprocessable Entity" "Invalid field value" ])).1
  = Throw (ExMcp (mkMcpError InternalError
      "Failed to update feature: REST API error: 422 Unprocessable Entity - Invalid field value")).
Proof. vm_compute. reflexivity. Qed.

Example list_features_two_pages :
  (run (handleListFeaturesInRelease 10 (release_args "PROJ-R-1" None))
       (scripted_fetch [ one_feature "PROJ-1" (Some (mkPagination (Some 2)));
                         one_feature "PROJ-2" (Some (mkPagination (Some 2))) ]))
  = (Return (text_result (JSON_stringify
               (object [ ("total_count", JNum 2);
                         ("features", JArr [JStr "PROJ-1"; JStr "PROJ-2"]) ]))),
     [ FetchCall (mkFetch (ReleaseFeaturesEndpoint "PROJ-R-1" 1 100) GET None);
       FetchCall (mkFetch (ReleaseFeaturesEndpoint "PROJ-R-1" 2 100) GET None) ]).
Proof. vm_compute. reflexivity. Qed.

Example list_features_stale_total :
  fetches (run (handleListFeaturesInRelease 10 (release_args "PROJ-R-1" None))
               second_page_silent).2
  = [ mkFetch (ReleaseFeaturesEndpoint "PROJ-R-1" 1 100) GET None;
      mkFetch (ReleaseFeaturesEndpoint "PROJ-R-1" 2 100) GET None;
      mkFetch (ReleaseFeaturesEndpoint "PROJ-R-1" 3 100) GET None ].
Proof. vm_compute. reflexivity. Qed.

Example list_releases_filtered :
  run (handleListReleases 10 (releases_args "proj" (Some "fy2027")))
      (scripted_fetch [ one_product; three_releases ])
  = (Return (text_result (JSON_stringify
               (object
                  [ ("workspace",
                     object [ ("prefix", JStr "PROJ"); ("name", JStr "Test");
                              ("id", JStr "100") ]);
                    ("total_count", JNum 2);
                    ("releases",
                     JArr [ formatted "PROJ-R-1" "FY2027Q1";
                            formatted "PROJ-R-2" "FY2027Q2" ]) ]))),
     [ FetchCall (mkFetch (ProductsEndpoint 1) GET None);
       FetchCall (mkFetch (ProductReleasesEndpoint "100" 1) GET None) ]).
Proof. vm_compute. reflexivity. Qed.

Example list_releases_workspace_not_found :
  (run (handleListReleases 10 (releases_args "NOTFOUND" None))
       (scripted_fetch [ one_product ])).1
  = Return (text_result (Literal
      ("No workspace found with prefix " +:+ dquote +:+ "NOTFOUND" +:+ dquote +:+
       ". Available workspaces: PROJ"))).
Proof. vm_compute. reflexivity. Qed.

Example list_releases_second_loop_fails :
  run (handleListReleases 10 (releases_args "PROJ" None))
      (scripted_fetch [ one_product; error_response 403 "Forbidden" "" ])
  = (Throw (ExMcp (mkMcpError InternalError
              "Failed to list releases: REST API error: 403 Forbidden")),
     [ FetchCall (mkFetch (ProductsEndpoint 1) GET None);
       FetchCall (mkFetch (ProductReleasesEndpoint "100" 1) GET None) ]).
Proof. vm_compute. reflexivity. Qed.

(** * Further properties *)

(** ** The shape of references *)

Lemma forallb_weaken {A} (f g : A -> bool) l :
  (forall x, f x = true -> g x = true) -> forallb f l = true -> forallb g l = true.
Proof.
  intros Hfg. rewrite !forallb_forall. intros Hf x Hx. by apply Hfg, Hf.
Qed.

(** A pattern only accepts strings made of the characters it mentions. *)
Lemma lang_mentions r s : lang r s -> forallb (mentions r) s = true.
Proof.
  induction 1; simpl.
  - done.
  - by rewrite Ascii.eqb_refl.
  - unfold in_range. rewrite andb_true_r, andb_true_iff. split; by apply N.leb_le.
  - eapply forallb_weaken; [|exact IHlang]. intros x Hx. simpl. by rewrite Hx.
  - eapply forallb_weaken; [|exact IHlang]. intros x Hx. simpl.
    rewrite Hx. apply orb_true_r.
  - rewrite forallb_app, andb_true_iff. split.
    + eapply forallb_weaken; [|exact IHlang1]. intros x Hx. simpl. by rewrite Hx.
    + eapply forallb_weaken; [|exact IHlang2]. intros x Hx. simpl.
      rewrite Hx. apply orb_true_r.
  - done.
  - simpl in IHlang1. apply andb_true_iff in IHlang1 as [Hc H1].
    rewrite Hc. simpl. rewrite forallb_app, andb_true_iff. done.
Qed.

Lemma range_inv lo hi l :
  lang (Range lo hi) l -> exists c, l = [c] /\ in_range lo hi c = true.
Proof.
  intros H. inversion H; subst. eexists. split; [done|].
  unfold in_range. apply andb_true_iff. split; by apply N.leb_le.
Qed.

Lemma lit_inv a l : lang (Lit a) l -> l = [a].
Proof. intros H. by inversion H. Qed.

Lemma starts_with_prefix r l :
  lang (Seq prefix_segment r) l ->
  exists c l', l = c :: l' /\ in_range "A" "Z" c = true.
Proof.
  intros (l1 & l2 & -> & H1 & _)%RegexFacts.lang_seq_inv.
  apply RegexFacts.lang_seq_inv in H1 as (l3 & l4 & -> & Hu & _).
  apply range_inv in Hu as (c & -> & Hc). simpl. eauto.
Qed.

Ltac unfold_patterns :=
  unfold FEATURE_REF_REGEX, REQUIREMENT_REF_REGEX, NOTE_REF_REGEX,
    prefix_segment, Plus, upper, digit, dash.

Lemma mentions_ref_char r x :
  r = FEATURE_REF_REGEX \/ r = REQUIREMENT_REF_REGEX \/ r = NOTE_REF_REGEX ->
  mentions r x = true -> ref_char x = true.
Proof.
  unfold ref_char. intros [-> | [-> | ->]]; unfold_patterns; cbn [mentions].
  - by destruct (in_range "A" "Z" x), (in_range "0" "9" x), (Ascii.eqb "-" x).
  - by destruct (in_range "A" "Z" x), (in_range "0" "9" x), (Ascii.eqb "-" x).
  - destruct (Ascii.eqb "N" x) eqn:E.
    + apply Ascii.eqb_eq in E. by subst x.
    + by destruct (in_range "A" "Z" x), (in_range "0" "9" x), (Ascii.eqb "-" x).
Qed.

(** X1. A string accepted by any of the three reference patterns starts
    with an upper-case letter and is made of upper-case letters, digits and
    separators only: a lower-case letter anywhere makes it invalid. *)
Theorem reference_alphabet (s : string) :
  test FEATURE_REF_REGEX s || test REQUIREMENT_REF_REGEX s || test NOTE_REF_REGEX s
  = true ->
  exists c rest,
    s = String c rest /\ in_range "A" "Z" c = true /\
    forallb ref_char (list_ascii_of_string rest) = true.
Proof.
  unfold test. intros H.
  assert (Hl : exists r,
             (r = FEATURE_REF_REGEX \/ r = REQUIREMENT_REF_REGEX \/ r = NOTE_REF_REGEX)
             /\ lang r (list_ascii_of_string s)).
  { apply orb_true_iff in H as [H | H]; [apply orb_true_iff in H as [H | H]|];
      apply RegexFacts.matches_lang in H; eauto 6. }
  destruct Hl as (r & Hr & Hlang).
  assert (Hstart : exists c l', list_ascii_of_string s = c :: l'
                                /\ in_range "A" "Z" c = true).
  { destruct Hr as [-> | [-> | ->]]; by eapply starts_with_prefix. }
  destruct Hstart as (c & l' & Hs & Hc).
  destruct s as [|c0 rest]; [done|]. simpl in Hs. injection Hs as -> <-.
  exists c, rest. split; [done|]. split; [done|].
  apply lang_mentions in Hlang. simpl in Hlang.
  apply andb_true_iff in Hlang as [_ Hrest].
  eapply forallb_weaken; [|exact Hrest]. intros x. by apply mentions_ref_char.
Qed.

Lemma reference_alphabet_witness :
  exists c rest,
    "ACTIVATION-59" = String c rest /\ in_range "A" "Z" c = true /\
    forallb ref_char (list_ascii_of_string rest) = true.
Proof. apply (reference_alphabet "ACTIVATION-59"). reflexivity. Defined.

Lemma list_ascii_of_string_app a b :
  list_ascii_of_string (a +:+ b) = list_ascii_of_string a ++ list_ascii_of_string b.
Proof. induction a as [|c a IH]; simpl; [done|]. by rewrite IH. Qed.

(** X2. A requirement reference is exactly a feature reference followed by
    a separator and a run of digits. *)
Theorem requirement_extends_feature (s : string) :
  test REQUIREMENT_REF_REGEX s = true <->
  exists f d,
    s = f +:+ "-" +:+ d /\
    test FEATURE_REF_REGEX f = true /\ test (Plus digit) d = true.
Proof.
  unfold test. split.
  - intros H. apply RegexFacts.matches_lang in H. revert H. unfold_patterns.
    intros (p & l1 & Hs & Hp & H)%RegexFacts.lang_seq_inv.
    apply RegexFacts.lang_seq_inv in H as (d1 & l2 & -> & Hd1 & H).
    apply RegexFacts.lang_seq_inv in H as (n1 & l3 & -> & Hn1 & H).
    apply RegexFacts.lang_seq_inv in H as (d2 & n2 & -> & Hd2 & Hn2).
    apply lit_inv in Hd2 as ->.
    exists (string_of_list_ascii (p ++ d1 ++ n1)), (string_of_list_ascii n2).
    rewrite !RegexFacts.matches_lang, !list_ascii_of_string_of_list_ascii.
    split; [|split; [|done]].
    + rewrite <- (string_of_list_ascii_of_string s), Hs.
      rewrite <- (string_of_list_ascii_of_string
                    (string_of_list_ascii (p ++ d1 ++ n1) +:+ "-" +:+
                     string_of_list_ascii n2)).
      rewrite !list_ascii_of_string_app, !list_ascii_of_string_of_list_ascii.
      simpl. by rewrite <- !app_assoc.
    + constructor; [done|]. by constructor.
  - intros (f & d & -> & Hf & Hd).
    apply RegexFacts.matches_lang in Hf. apply RegexFacts.matches_lang in Hd.
    apply RegexFacts.matches_lang. revert Hf. unfold_patterns.
    intros (p & l1 & Hs & Hp & H)%RegexFacts.lang_seq_inv.
    apply RegexFacts.lang_seq_inv in H as (d1 & n1 & -> & Hd1 & Hn1).
    rewrite !list_ascii_of_string_app, Hs. simpl. rewrite <- !app_assoc.
    constructor; [done|]. constructor; [done|]. constructor; [done|].
    change ("-"%char :: list_ascii_of_string d)
      with (["-"%char] ++ list_ascii_of_string d).
    constructor; [constructor | done].
Qed.

Lemma no_dash r l :
  lang r l -> mentions r "-" = false -> count_occ ascii_dec l "-"%char = 0%nat.
Proof.
  intros Hl Hm. apply lang_mentions in Hl. apply count_occ_not_In. intros Hin.
  rewrite forallb_forall in Hl. rewrite (Hl _ Hin) in Hm. done.
Qed.

(** X3. The patterns differ in their number of separators: a feature
    reference has exactly one, a requirement or page reference exactly
    two. *)
Theorem reference_segments (s : string) :
  (test FEATURE_REF_REGEX s = true -> dashes s = 1%nat) /\
  (test REQUIREMENT_REF_REGEX s = true -> dashes s = 2%nat) /\
  (test NOTE_REF_REGEX s = true -> dashes s = 2%nat).
Proof.
  unfold test, dashes.
  repeat split; intros H; apply RegexFacts.matches_lang in H; revert H;
    unfold_patterns; intros H;
    repeat match goal with
           | H : lang (Seq _ _) _ |- _ =>
               apply RegexFacts.lang_seq_inv in H as (? & ? & -> & ? & ?)
           | H : lang (Lit _) _ |- _ => apply lit_inv in H as ->
           | H : lang (Range _ _) _ |- _ => apply no_dash in H; [|done]
           | H : lang (Star _) _ |- _ => apply no_dash in H; [|done]
           end;
    rewrite ?count_occ_app; simpl;
    repeat match goal with
           | H : count_occ _ _ _ = _ |- _ => rewrite H; clear H
           end; done.
Qed.

Lemma reference_segments_witness : dashes "ADT-123-1" = 2%nat.
Proof.
  destruct (reference_segments "ADT-123-1") as (_ & H & _).
  apply H. reflexivity.
Defined.

(** ** The dispatcher and the tool list *)

(** Unfolds a run and follows every branch of it. *)
Ltac follow_run :=
  unfold run, try_catch, bind, request, fetch, prop, invalid_params, rethrow,
    await, ret, throw; simpl;
  repeat (match goal with
          | |- context [match ?x with _ => _ end] =>
              lazymatch x with
              | context [match _ with _ => _ end] => fail
              | _ => destruct x eqn:?
              end
          end; simpl in *).

(** X4. The dispatcher knows exactly the tools of the tool list: a listed
    name runs one of the operations of [handlers.ts]; any other name is
    refused with [MethodNotFound], naming the tool, and nothing is
    requested. *)
Theorem dispatcher_matches_tool_list fuel (tool : string) :
  (tool ∈ map tool_name tools ->
   exists prefix h, In (prefix, h) operations /\ callTool fuel tool = h fuel) /\
  (tool ∉ map tool_name tools ->
   forall args be,
     run (callTool fuel tool args) be
     = (Throw (ExMcp (mkMcpError MethodNotFound ("Unknown tool: " +:+ tool))), [])).
Proof.
  split.
  - simpl. rewrite !elem_of_cons, elem_of_nil.
    intros [-> | [-> | [-> | [-> | [-> | [-> | [-> | []]]]]]]];
      unfold callTool, operations; simpl; eauto 12.
  - simpl. rewrite !not_elem_of_cons.
    intros (H1 & H2 & H3 & H4 & H5 & H6 & H7 & _) args be.
    unfold callTool.
    apply String.eqb_neq in H1, H2, H3, H4, H5, H6, H7.
    by rewrite H1, H2, H3, H4, H5, H6, H7.
Qed.

Lemma dispatcher_matches_tool_list_witness :
  run (callTool 5 "list_releases" (releases_args "PROJ" None)) (scripted_fetch [])
  = (Throw (ExMcp (mkMcpError MethodNotFound "Unknown tool: list_releases")), []).
Proof.
  apply (dispatcher_matches_tool_list 5 "list_releases"). compute_done.
Defined.

Lemma argument_undefined_string (o : option string) :
  from_option JStr JUndefined o = JUndefined -> missing o = true.
Proof. by destruct o. Qed.

(** On a request that carries its arguments, the two dispatchers agree. *)
Lemma callToolRequest_arguments fuel tool args :
  callToolRequest fuel (mkRequest tool (Some args)) = callTool fuel tool args.
Proof.
  unfold callToolRequest, callTool, on_request. simpl.
  repeat match goal with
         | |- context [if String.eqb tool ?n then _ else _] =>
             destruct (String.eqb tool n); [reflexivity|]
         end.
  reflexivity.
Qed.

Lemma required_with_arguments fuel (t : Tool) (property : string) args be :
  t ∈ tools -> property ∈ required t ->
  argument args property = JUndefined ->
  exists msg,
    run (callTool fuel (tool_name t) args) be
    = (Throw (ExMcp (mkMcpError InvalidParams msg)), []).
Proof.
  unfold tools. rewrite !elem_of_cons, elem_of_nil.
  intros [-> | [-> | [-> | [-> | [-> | [-> | [-> | []]]]]]]]; simpl;
    rewrite ?elem_of_cons, elem_of_nil;
    intros Hp Ha; repeat destruct Hp as [-> | Hp]; try done;
    unfold argument in Ha; simpl in Ha; unfold callTool; simpl.
  - apply argument_undefined_string in Ha. unfold handleGetRecord. rewrite Ha. eauto.
  - apply argument_undefined_string in Ha. unfold handleGetPage. rewrite Ha. eauto.
  - apply argument_undefined_string in Ha. unfold handleSearchDocuments.
    rewrite Ha. eauto.
  - apply argument_undefined_string in Ha. unfold handleGetRecordRest.
    rewrite Ha. eauto.
  - apply argument_undefined_string in Ha. unfold handleListFeaturesInRelease.
    rewrite Ha. eauto.
  - apply argument_undefined_string in Ha. unfold handleUpdateFeature.
    rewrite Ha. eauto.
  - unfold handleUpdateFeature. destruct (fields args); [done|].
    destruct (missing (reference args)); eauto.
Qed.

(** X5. Every argument the tool list declares [required] is enforced by
    the handler the dispatcher runs: a call whose [arguments] object leaves
    it out fails with [InvalidParams] before anything is requested. A call
    with no [arguments] object at all leaves every required argument out
    too and also fails before anything is requested, but at the
    destructuring that opens the handler: what is thrown then is the
    [TypeError] of the engine, not [InvalidParams]. *)
Theorem required_arguments_enforced fuel (t : Tool) (property : string) request be :
  t ∈ tools -> property ∈ required t -> request_name request = tool_name t ->
  match request_arguments request with
  | Some args =>
      argument args property = JUndefined ->
      exists msg,
        run (callToolRequest fuel request) be
        = (Throw (ExMcp (mkMcpError InvalidParams msg)), [])
  | None =>
      exists msg,
        run (callToolRequest fuel request) be = (Throw (TypeError msg), [])
  end.
Proof.
  destruct request as [tool [args|]]; simpl; intros Ht Hp ->.
  - intros Ha. rewrite callToolRequest_arguments.
    by apply (required_with_arguments fuel t property).
  - revert Ht Hp. unfold tools. rewrite !elem_of_cons, elem_of_nil.
    intros [-> | [-> | [-> | [-> | [-> | [-> | [-> | []]]]]]]]; simpl;
      rewrite ?elem_of_cons, elem_of_nil; intros Hp;
      try (by destruct Hp); eexists; reflexivity.
Qed.

Lemma required_arguments_enforced_witness :
  (exists msg,
     run (callToolRequest 5
            (mkRequest "update_feature" (Some (update_args (Some "PROJ-1") None))))
         (scripted_fetch [])
     = (Throw (ExMcp (mkMcpError InvalidParams msg)), [])) /\
  (exists msg,
     run (callToolRequest 5 (mkRequest "update_feature" None)) (scripted_fetch [])
     = (Throw (TypeError msg), [])).
Proof.
  split.
  - apply (required_arguments_enforced 5
             (mkTool "update_feature" [ ("reference", None); ("fields", None) ]
                [ "reference"; "fields" ])
             "fields"
             (mkRequest "update_feature" (Some (update_args (Some "PROJ-1") None))));
      [ repeat first [apply list_elem_of_here | apply list_elem_of_further]
      | repeat first [apply list_elem_of_here | apply list_elem_of_further]
      | reflexivity | reflexivity ].
  - apply (required_arguments_enforced 5
             (mkTool "update_feature" [ ("reference", None); ("fields", None) ]
                [ "reference"; "fields" ])
             "fields" (mkRequest "update_feature" None));
      [ repeat first [apply list_elem_of_here | apply list_elem_of_further]
      | repeat first [apply list_elem_of_here | apply list_elem_of_further]
      | reflexivity ].
Defined.

(** X6. The defaults the tool list announces are the ones the handlers
    apply: leaving an optional argument out is the same as passing the
    [default] of its schema. *)
Theorem schema_defaults_applied fuel (t : Tool) (property : string) (d : JsValue) args :
  t ∈ tools -> (property, Some d) ∈ properties t ->
  argument args property = JUndefined ->
  callTool fuel (tool_name t) (with_argument args property d)
  = callTool fuel (tool_name t) args.
Proof.
  unfold tools. rewrite !elem_of_cons, elem_of_nil.
  intros [-> | [-> | [-> | [-> | [-> | [-> | [-> | []]]]]]]]; simpl;
    rewrite ?elem_of_cons, elem_of_nil;
    intros Hp Ha;
    repeat (destruct Hp as [Hp | Hp]; [try discriminate; injection Hp as -> -> |]);
    try done;
    unfold argument in Ha; simpl in Ha; destruct args; simpl in *.
  - by destruct includeParent0.
  - by destruct searchableType0.
  - by destruct perPage0.
Qed.

Lemma schema_defaults_applied_witness :
  callTool 5 "list_features_in_release"
    (with_argument (release_args "PROJ-R-1" None) "perPage" (JNum 100))
  = callTool 5 "list_features_in_release" (release_args "PROJ-R-1" None).
Proof.
  apply (schema_defaults_applied 5
           (mkTool "list_features_in_release"
              [ ("releaseReference", None); ("perPage", Some (JNum 100)) ]
              [ "releaseReference" ])
           "perPage" (JNum 100));
    [ repeat first [apply list_elem_of_here | apply list_elem_of_further]
    | repeat first [apply list_elem_of_here | apply list_elem_of_further]
    | reflexivity ].
Defined.

(** ** What leaves a handler *)

Lemma only_mcp_invalid {A} msg : throws_only_mcp (@invalid_params A msg).
Proof. intros be tr e tr' [= <- <-]. eauto. Qed.

Lemma only_mcp_try {A} (body : M A) prefix :
  throws_only_mcp (try_catch body (rethrow prefix)).
Proof.
  intros be tr e tr'. unfold try_catch.
  destruct (body be tr) as [[a|e0|] tr0]; try done.
  rewrite wrapped_rethrow. intros [= <- <-]. destruct e0; simpl; eauto.
Qed.

Ltac only_mcp :=
  repeat match goal with
         | |- throws_only_mcp (if ?b then _ else _) => destruct b
         | |- throws_only_mcp (invalid_params _) => apply only_mcp_invalid
         | |- throws_only_mcp (try_catch _ _) => apply only_mcp_try
         end.

Lemma only_mcp_callTool fuel tool args : throws_only_mcp (callTool fuel tool args).
Proof.
  unfold callTool, handleGetRecord, handleGetPage, handleSearchDocuments,
    handleIntrospectFeature, handleGetRecordRest, handleListFeaturesInRelease,
    handleUpdateFeature.
  only_mcp. intros be tr e tr' [= <- <-]. eauto.
Qed.

Lemma only_mcp_list_releases fuel args :
  throws_only_mcp (handleListReleases fuel args).
Proof. unfold handleListReleases. only_mcp. Qed.

(** X7. Whatever the backend answers, malformed answers included, and
    whatever the arguments object holds, an operation that fails throws an
    [McpError]. The one other exception that leaves the dispatcher or
    [handleListReleases] is the [TypeError] of the destructuring that opens
    a handler, and it does so only on a request without an [arguments]
    object, before anything is requested. *)
Theorem only_mcp_errors_escape fuel request be e tr :
  run (callToolRequest fuel request) be = (Throw e, tr) \/
  run (on_request "workspacePrefix" (handleListReleases fuel) request) be
  = (Throw e, tr) ->
  (exists err, e = ExMcp err) \/
  (request_arguments request = None /\ tr = [] /\ exists msg, e = TypeError msg).
Proof.
  destruct request as [tool [args|]]; simpl.
  - rewrite callToolRequest_arguments. intros [H | H]; left.
    + by eapply only_mcp_callTool.
    + by eapply (only_mcp_list_releases fuel args).
  - intros [H | H].
    + revert H. unfold callToolRequest, on_request, run. simpl.
      repeat match goal with
             | |- context [if String.eqb tool ?n then _ else _] =>
                 destruct (String.eqb tool n)
             end;
        try (intros [= <- <-]; right; eauto; fail).
      * intros H. left. revert H. apply only_mcp_try.
      * intros [= <- <-]. eauto.
    + injection H as <- <-. right. eauto.
Qed.

Lemma only_mcp_errors_escape_witness :
  ((exists err,
      ExMcp (mkMcpError InternalError
               "Failed to search documents: Cannot read properties of null")
      = ExMcp err) \/
   (Some (mkArgs None None (Some "roadmap") None None None None None None) = None /\
    [GqlCall (mkGql searchDocumentsQuery
                (<["query" := JStr "roadmap"]>
                   {[ "searchableType" := JArr [JStr "Page"] ]}))] = [] /\
    exists msg,
      ExMcp (mkMcpError InternalError
               "Failed to search documents: Cannot read properties of null")
      = TypeError msg)).
Proof.
  apply (only_mcp_errors_escape 0
           (mkRequest "search_documents"
              (Some (mkArgs None None (Some "roadmap") None None None None None None)))
           (scripted_client [Resolved JNull])).
  left. reflexivity.
Defined.

(** X8. Every tool but [list_features_in_release] makes at most one call
    to a transport, whatever the answer is: there is no retry and no second
    request. *)
Theorem single_request_operations fuel tool args be :
  tool <> "list_features_in_release" ->
  (List.length (run (callTool fuel tool args) be).2 <= 1)%nat.
Proof.
  intros Hne. apply String.eqb_neq in Hne. unfold callTool. rewrite Hne.
  repeat match goal with
         | |- context [if String.eqb tool ?n then _ else _] =>
             destruct (String.eqb tool n)
         end.
  - unfold handleGetRecord. follow_run; lia.
  - unfold handleGetPage. follow_run; lia.
  - unfold handleSearchDocuments. follow_run; lia.
  - unfold handleIntrospectFeature. follow_run; lia.
  - unfold handleGetRecordRest. follow_run; lia.
  - unfold handleUpdateFeature. follow_run; lia.
  - simpl. lia.
Qed.

Lemma single_request_operations_witness :
  (List.length
     (run (callTool 0 "get_record_rest" (update_args (Some "PROJ-1") None))
          (scripted_fetch [ error_response 404 "Not Found" "" ])).2 <= 1)%nat.
Proof.
  apply (single_request_operations 0 "get_record_rest"). discriminate.
Defined.

(** ** [get_page], [search_documents], [get_record_rest] *)

(** X9. [get_page] with a present reference: a reference that does not
    match the page pattern fails with [InvalidParams] and requests nothing;
    one that matches issues the page query once, with [includeParent]
    false unless the caller set it, and an answer without a page gives the
    text "No page found for reference ...", not an error. *)
Theorem get_page_contract (be : Backend) (args : ToolArguments) (ref : string) :
  reference args = Some ref -> ref <> "" ->
  let out := run (handleGetPage args) be in
  let call :=
    mkGql getPageQuery
      (<["id" := JStr ref]>
         {[ "includeParent" := JBool (default false (includeParent args)) ]}) in
  (test NOTE_REF_REGEX ref = false ->
   out = (Throw (ExMcp (mkMcpError InvalidParams
                          "Invalid reference number format. Expected ABC-N-213")),
          [])) /\
  (test NOTE_REF_REGEX ref = true ->
   out.2 = [GqlCall call] /\
   forall data,
     client_request be 0 call = Resolved data -> nullish data = false ->
     out.1 = if truthy (get data "page")
             then Return (text_result (JSON_stringify (get data "page")))
             else Return (text_result
                            (Literal ("No page found for reference " +:+ ref)))).
Proof.
  intros Href Hne. apply missing_present in Hne.
  unfold handleGetPage. rewrite Href, Hne.
  change (default "" (Some ref)) with ref. split.
  - intros Hn. by rewrite Hn.
  - intros Hn. rewrite Hn. run_handler. split.
    + destruct (client_request be 0 _) as [data|e]; simpl.
      * destruct (nullish data); simpl; [done|]. by destruct (truthy _).
      * by destruct e.
    + intros data -> Hd. simpl. rewrite Hd. simpl. by destruct (truthy _).
Qed.

Lemma get_page_contract_witness :
  run (handleGetPage (update_args (Some "PROJ-1") None)) (scripted_client [])
  = (Throw (ExMcp (mkMcpError InvalidParams
                     "Invalid reference number format. Expected ABC-N-213")),
     []).
Proof.
  destruct (get_page_contract (scripted_client [])
              (update_args (Some "PROJ-1") None) "PROJ-1"
              eq_refl ltac:(discriminate)) as [H _].
  apply H. reflexivity.
Defined.

(** X10. No reference is served by both [get_record] and [get_page]:
    whatever the arguments, at least one of the two refuses it without
    requesting anything. *)
Theorem record_and_page_references_exclusive args be be' :
  (run (handleGetRecord args) be).2 = [] \/ (run (handleGetPage args) be').2 = [].
Proof.
  unfold handleGetRecord, handleGetPage.
  destruct (missing (reference args)); [by left|].
  set (ref := default "" (reference args)).
  destruct (test NOTE_REF_REGEX ref) eqn:Hn; [|by right].
  left.
  assert (Hf : test FEATURE_REF_REGEX ref = false).
  { pose proof (RegexFacts.disjoint_by_exploration FEATURE_REF_REGEX NOTE_REF_REGEX
                  ltac:(by vm_compute) ltac:(by vm_compute) ltac:(by vm_compute)
                  (list_ascii_of_string ref)) as H.
    unfold test in *. rewrite Hn, andb_true_r in H. exact H. }
  assert (Hr : test REQUIREMENT_REF_REGEX ref = false).
  { pose proof (RegexFacts.disjoint_by_exploration REQUIREMENT_REF_REGEX NOTE_REF_REGEX
                  ltac:(by vm_compute) ltac:(by vm_compute) ltac:(by vm_compute)
                  (list_ascii_of_string ref)) as H.
    unfold test in *. rewrite Hn, andb_true_r in H. exact H. }
  by rewrite Hf, Hr.
Qed.

(** X11. [search_documents] with a present query issues the search query
    once, the type wrapped in a list and "Page" unless the caller chose
    another; whatever [searchDocuments] holds in the answer is returned as
    it is: an empty result is not turned into a "not found" text. *)
Theorem search_documents_contract (be : Backend) (args : ToolArguments) (q : string) :
  query args = Some q -> q <> "" ->
  let out := run (handleSearchDocuments args) be in
  let call :=
    mkGql searchDocumentsQuery
      (<["query" := JStr q]>
         {[ "searchableType" := JArr [JStr (default "Page" (searchableType args))] ]}) in
  out.2 = [GqlCall call] /\
  forall data,
    client_request be 0 call = Resolved data -> nullish data = false ->
    out.1 = Return (text_result (JSON_stringify (get data "searchDocuments"))).
Proof.
  intros Hq Hne. apply missing_present in Hne.
  unfold handleSearchDocuments. rewrite Hq, Hne.
  change (default "" (Some q)) with q. run_handler. split.
  - destruct (client_request be 0 _) as [data|e]; simpl.
    + by destruct (nullish data).
    + by destruct e.
  - intros data -> Hd. simpl. by rewrite Hd.
Qed.

Lemma search_documents_contract_witness :
  (run (handleSearchDocuments
          (mkArgs None None (Some "roadmap") None None None None None None))
       (scripted_client [Resolved (object [("searchDocuments",
                                            object [("nodes", JArr [])])])])).1
  = Return (text_result (JSON_stringify (object [("nodes", JArr [])]))).
Proof.
  destruct (search_documents_contract
              (scripted_client [Resolved (object [("searchDocuments",
                                                   object [("nodes", JArr [])])])])
              (mkArgs None None (Some "roadmap") None None None None None None)
              "roadmap" eq_refl ltac:(discriminate)) as [_ H].
  apply (H (object [("searchDocuments", object [("nodes", JArr [])])]));
    reflexivity.
Defined.

(** X12. [get_record_rest] does not look at the format of the reference:
    any present reference is requested from the features endpoint, once. A
    response that is not [ok] (a 404 for a record that does not exist) is an
    error carrying the status, not a "not found" result; an [ok] response is
    returned whole. *)
Theorem get_record_rest_contract (be : Backend) (args : ToolArguments) (ref : string) :
  reference args = Some ref -> ref <> "" ->
  let out := run (handleGetRecordRest args) be in
  let call := mkFetch (FeatureEndpoint ref) GET None in
  out.2 = [FetchCall call] /\
  forall response,
    global_fetch be 0 call = Resolved response ->
    (ok response = false ->
     out.1 = Throw (ExMcp (mkMcpError InternalError
                             ("Failed to fetch record via REST: " +:+
                              rest_error response)))) /\
    (forall data,
       ok response = true -> json response = Resolved data ->
       out.1 = Return (text_result (JSON_stringify (body_value data)))).
Proof.
  intros Href Hne. apply missing_present in Hne.
  unfold handleGetRecordRest. rewrite Href, Hne.
  change (default "" (Some ref)) with ref. run_handler. split.
  - destruct (global_fetch be 0 _) as [response|e]; simpl; [|by destruct e].
    destruct (ok response); simpl; [|done].
    destruct (json response) as [data|e]; simpl; [done | by destruct e].
  - intros response ->. simpl. split.
    + by intros ->.
    + intros data -> ->. done.
Qed.

Lemma get_record_rest_contract_witness :
  (run (handleGetRecordRest (update_args (Some "PROJ-1-1") None))
       (scripted_fetch [ error_response 404 "Not Found" "" ])).2
  = [FetchCall (mkFetch (FeatureEndpoint "PROJ-1-1") GET None)].
Proof.
  apply (get_record_rest_contract
           (scripted_fetch [ error_response 404 "Not Found" "" ])
           (update_args (Some "PROJ-1-1") None) "PROJ-1-1"
           eq_refl ltac:(discriminate)).
Defined.

(** ** How long the pagination runs *)

Lemma running_total_bounded be ep base T :
  1 <= T ->
  (forall k d p,
      page_data be ep base k = Some d -> pagination d = Some p ->
      declared_total p <= T) ->
  forall k, running_total be ep base k <= T.
Proof.
  intros HT Hb. induction k as [|k IH]; simpl; [done|].
  destruct (page_data be ep base k) as [d|] eqn:D; [|done].
  destruct (pagination d) as [p|] eqn:P; [|done]. by eapply Hb.
Qed.

(** X13. When no page declares more than [T] pages, [list_features_in_release]
    makes at most [T] fetches and comes to an end: with fuel for [T] turns
    the loop never runs out. *)
Theorem bounded_totals_terminate fuel be args rel (T : Z) :
  releaseReference args = Some rel -> rel <> "" ->
  let ep := fun page => ReleaseFeaturesEndpoint rel page (default 100 (perPage args)) in
  let out := run (handleListFeaturesInRelease fuel args) be in
  1 <= T ->
  (forall k d p,
      page_data be ep 0 k = Some d -> pagination d = Some p ->
      declared_total p <= T) ->
  (Z.to_nat T <= fuel)%nat ->
  out.1 <> Diverge /\ Z.of_nat (List.length out.2) <= T.
Proof.
  intros Hrel Hne ep out HT Hb Hfuel.
  destruct (list_features_run fuel be args rel Hrel Hne) as (n & Htr & Hcond & Hres).
  fold ep in Htr, Hcond, Hres. fold out in Htr, Hres.
  pose proof (running_total_bounded be ep 0 T HT Hb) as Hrt.
  assert (Hn : Z.of_nat n <= T).
  { destruct n as [|n]; [lia|].
    specialize (Hcond n ltac:(lia)). specialize (Hrt n). lia. }
  split.
  - intros Hd. rewrite Hd in Hres. destruct Hres as [-> Hgo].
    specialize (Hrt fuel). lia.
  - by rewrite Htr, length_map, length_seq.
Qed.

Lemma bounded_totals_terminate_witness :
  let out := run (handleListFeaturesInRelease 3 (release_args "PROJ-R-1" None))
               three_pages in
  out.1 <> Diverge /\ Z.of_nat (List.length out.2) <= 3.
Proof.
  apply (bounded_totals_terminate 3 three_pages (release_args "PROJ-R-1" None)
           "PROJ-R-1" 3 eq_refl ltac:(discriminate) ltac:(lia)); [|simpl; lia].
  intros k d p D P.
  destruct k as [|[|[|k]]]; vm_compute in D; try discriminate;
    injection D as <-; injection P as <-; vm_compute; discriminate.
Defined.

(** X14. Nothing bounds the number of fetches: against a backend whose
    every page declares more pages than were fetched so far, the loop of
    [list_features_in_release] never comes to an end, whatever fuel it is
    given. *)
Theorem growing_totals_never_return fuel be args rel :
  releaseReference args = Some rel -> rel <> "" ->
  let ep := fun page => ReleaseFeaturesEndpoint rel page (default 100 (perPage args)) in
  let out := run (handleListFeaturesInRelease fuel args) be in
  (forall k, exists d p,
      page_data be ep 0 k = Some d /\ pagination d = Some p /\
      Z.of_nat k + 2 <= declared_total p /\
      spreadable (default JUndefined (props d !! "features")) = true) ->
  out.1 = Diverge /\ List.length out.2 = fuel.
Proof.
  intros Hrel Hne ep out Hgrow.
  destruct (list_features_run fuel be args rel Hrel Hne) as (n & Htr & Hcond & Hres).
  fold ep in Htr, Hcond, Hres. fold out in Htr, Hres.
  assert (Hrt : forall k, Z.of_nat k + 1 <= running_total be ep 0 k).
  { intros [|k]; [simpl; lia|].
    destruct (Hgrow k) as (d & p & D & P & Hle & _). simpl. rewrite D, P. lia. }
  assert (Hc : forall k, page_complete be ep "features" 0 k = true).
  { intros k. destruct (Hgrow k) as (d & p & D & _ & _ & Hs).
    unfold page_complete. by rewrite D. }
  rewrite Htr, length_map, length_seq. destruct out.1 as [res|e|].
  - destruct Hres as (_ & Hlt & _). specialize (Hrt n). lia.
  - destruct Hres as (n' & _ & Hn'). by rewrite Hc in Hn'.
  - by destruct Hres as [-> _].
Qed.

Lemma growing_totals_never_return_witness :
  let out := run (handleListFeaturesInRelease 7 (release_args "PROJ-R-1" None))
               ever_growing in
  out.1 = Diverge /\ List.length out.2 = 7%nat.
Proof.
  apply (growing_totals_never_return 7 ever_growing (release_args "PROJ-R-1" None)
           "PROJ-R-1" eq_refl ltac:(discriminate)).
  intros k.
  exists (mkBody {[ "features" := JArr [] ]}
            (Some (mkPagination (Some (Z.of_nat k + 2))))),
         (mkPagination (Some (Z.of_nat k + 2))).
  split; [reflexivity|]. split; [reflexivity|]. split; [|reflexivity].
  unfold declared_total. simpl.
  destruct (Z.of_nat k + 2 =? 0) eqn:E; lia.
Defined.

(** ** [list_releases] *)

Lemma quiet_ret {A} (a : A) : quiet (ret a).
Proof. done. Qed.

Lemma quiet_throw {A} e : quiet (@throw A e).
Proof. done. Qed.

Lemma quiet_prop o k : quiet (prop o k).
Proof. unfold prop. by destruct (nullish o). Qed.

Lemma quiet_opt_toLowerCase v : quiet (opt_toLowerCase v).
Proof. by destruct v. Qed.

Lemma quiet_bind {A B} (m : M A) (k : A -> M B) :
  quiet m -> (forall a, quiet (k a)) -> quiet (bind m k).
Proof.
  intros Hm Hk be tr. unfold bind. specialize (Hm be tr).
  destruct (m be tr) as [[a|e|] tr']; simpl in *; subst; [apply Hk | done | done].
Qed.

Lemma quiet_mapM {A B} (f : A -> M B) xs : (forall x, quiet (f x)) -> quiet (mapM f xs).
Proof.
  intros Hf. induction xs as [|x xs IH]; simpl; [apply quiet_ret|].
  apply quiet_bind; [apply Hf|]. intros y.
  apply quiet_bind; [apply IH|]. intros ys. apply quiet_ret.
Qed.

Lemma quiet_filterM {A} (f : A -> M bool) xs :
  (forall x, quiet (f x)) -> quiet (filterM f xs).
Proof.
  intros Hf. induction xs as [|x xs IH]; simpl; [apply quiet_ret|].
  apply quiet_bind; [apply Hf|]. intros y.
  apply quiet_bind; [apply IH|]. intros ys. apply quiet_ret.
Qed.

Ltac quiet_step :=
  first
    [ apply quiet_ret | apply quiet_throw | apply quiet_prop
    | apply quiet_opt_toLowerCase | apply quiet_mapM | apply quiet_filterM
    | apply quiet_bind
    | match goal with
      | |- quiet (if ?b then _ else _) => destruct b
      | |- quiet (match ?x with _ => _ end) => destruct x
      | |- forall _, _ => intros
      end ].

Ltac quiet_auto := repeat quiet_step.

Lemma quiet_find_product wanted products : quiet (find_product wanted products).
Proof.
  induction products as [|p rest IH]; simpl; [apply quiet_ret|].
  apply quiet_bind; [apply quiet_prop|]. intros v.
  apply quiet_bind; [apply quiet_opt_toLowerCase|]. intros lowered.
  destruct lowered; try done. destruct (String.eqb _ _); [apply quiet_ret | done].
Qed.

Lemma quiet_name_matches q r : quiet (name_matches q r).
Proof. unfold name_matches. quiet_auto. Qed.

Lemma quiet_format_release r : quiet (format_release r).
Proof. unfold format_release. quiet_auto. Qed.

(** [find] returns an element of the list whose prefix, in lower case, is
    the wanted one. *)
Lemma find_product_spec wanted products be tr p tr' :
  find_product wanted products be tr = (Return p, tr') -> truthy p = true ->
  p ∈ products /\
  exists s, get p "reference_prefix" = JStr s /\ toLowerCase s = wanted.
Proof.
  revert tr. induction products as [|x rest IH]; intros tr; simpl.
  - intros [= <- <-]. done.
  - unfold bind, prop. destruct (nullish x) eqn:Hx; simpl; [done|].
    destruct (get x "reference_prefix") as [ | | b | n | s | l | m ] eqn:G; simpl;
      try done;
      try (intros H Ht; destruct (IH _ H Ht) as [Hin Hs]; split;
           [by apply list_elem_of_further | done]).
    destruct (String.eqb (toLowerCase s) wanted) eqn:E.
    + intros [= <- <-] _. apply String.eqb_eq in E.
      split; [apply list_elem_of_here | eauto].
    + intros H Ht. destruct (IH _ H Ht) as [Hin Hs]. split;
        [by apply list_elem_of_further | done].
Qed.

Lemma returns_ret {A} (P : A -> Prop) a : P a -> returns_only P (ret a).
Proof. intros H be tr a' tr' [= <- <-]. done. Qed.

Lemma returns_throw {A} (P : A -> Prop) e : returns_only P (throw e).
Proof. intros be tr a' tr' [=]. Qed.

Lemma returns_bind {A B} (P : B -> Prop) (m : M A) (k : A -> M B) :
  (forall a, returns_only P (k a)) -> returns_only P (bind m k).
Proof.
  intros Hk be tr b tr'. unfold bind.
  destruct (m be tr) as [[a|e|] tr0]; try done. apply Hk.
Qed.

Lemma returns_try_catch {A} (P : A -> Prop) (body : M A) prefix :
  returns_only P body -> returns_only P (try_catch body (rethrow prefix)).
Proof.
  intros Hb be tr a tr'. unfold try_catch. specialize (Hb be tr).
  destruct (body be tr) as [[a0|e|] tr0]; try done.
  - intros [= <- <-]. by eapply Hb.
  - by rewrite wrapped_rethrow.
Qed.

Ltac returns_step :=
  first
    [ apply returns_throw
    | apply returns_try_catch
    | apply returns_bind; intros
    | match goal with
      | |- returns_only _ (if ?b then _ else _) => destruct b
      | |- returns_only _ (invalid_params _) => apply returns_throw
      end ].

Lemma counted_listing key (l : list JsValue) (others : list (string * JsValue)) :
  key <> "total_count" ->
  counted key
    (text_result (JSON_stringify
       (JObj (<["total_count" := JNum (Z.of_nat (List.length l))]>
                (<[key := JArr l]> (list_to_map others)))))) .
Proof.
  intros Hk. eexists _, l. split; [done|]. simpl.
  rewrite lookup_insert_ne by done. rewrite !lookup_insert_eq. done.
Qed.

(** The requests of one pagination loop, and what it hands over: unless
    it is given no fuel at all, the loop requests the first page. *)
Lemma paginate_run be endpoint_of items_key fuel tr :
  let out := paginate fuel endpoint_of items_key be tr in
  exists n,
    out.2 = tr ++ map (fun j => FetchCall (page_request endpoint_of j)) (seq 0 n) /\
    ((1 <= fuel)%nat \/ out.1 <> Diverge -> (1 <= n)%nat) /\
    forall items,
      out.1 = Return items ->
      items = concat (map (received be endpoint_of items_key (List.length tr))
                        (seq 0 n)).
Proof.
  unfold paginate, bind.
  pose proof (while_pages be endpoint_of items_key (List.length tr) fuel 0 [] tr
                ltac:(lia)) as (n & Htr & _ & Hres).
  change (Z.of_nat 0 + 1) with 1 in Htr, Hres.
  change (running_total be endpoint_of (List.length tr) 0) with 1 in Htr, Hres.
  cbv zeta in Htr, Hres.
  destruct (while fuel _ _ _ be tr) as [[s|e|] tr']; simpl in *; subst tr';
    exists n; (split; [done|]); split.
  - intros _. destruct Hres as (_ & Hlt & _).
    destruct n; [simpl in Hlt; lia | lia].
  - intros items [= <-]. by destruct Hres as (-> & _).
  - intros _. destruct Hres as (n' & -> & _). lia.
  - done.
  - intros [Hf | Hd]; [|done]. destruct Hres as [-> _]. done.
  - done.
Qed.

Lemma try_catch_trace {A} (body : M A) prefix be tr :
  (try_catch body (rethrow prefix) be tr).2 = (body be tr).2.
Proof.
  unfold try_catch. destruct (body be tr) as [[a|e|] tr']; try done.
  by rewrite wrapped_rethrow.
Qed.

Lemma bind_quiet_trace {A B} (m : M A) (k : A -> M B) be tr :
  (forall a, quiet (k a)) -> (bind m k be tr).2 = (m be tr).2.
Proof.
  intros Hk. unfold bind. destruct (m be tr) as [[a|e|] tr']; try done. apply Hk.
Qed.

Lemma truthy_not_nullish v : truthy v = true -> nullish v = false.
Proof. by destruct v. Qed.

(** X15. [list_releases] first pages through the products, from the
    first page on, then pages through the releases of one product,
    addressed by its [id]. A release is requested only if one of the
    products received carries the wanted prefix (compared in lower case):
    a listing is returned only after at least one request for releases,
    and the text that reports an unknown workspace only after none. The
    prefixes are taken to be ASCII text and the [id]s not to be numbers
    beyond the exact range, where the embedding is the engine's. *)
Theorem list_releases_requests fuel be args w :
  workspacePrefix args = Some w -> w <> "" -> is_ascii w = true ->
  (forall k product,
      product ∈ received be ProductsEndpoint "products" 0 k ->
      plain_product product) ->
  let out := run (handleListReleases fuel args) be in
  exists n m pid,
    out.2 = map (fun j => FetchCall (page_request ProductsEndpoint j)) (seq 0 n) ++
            map (fun j => FetchCall (page_request (ProductReleasesEndpoint pid) j))
              (seq 0 m) /\
    ((1 <= fuel)%nat -> (1 <= n)%nat) /\
    ((0 < m)%nat ->
     exists product s,
       product ∈ concat (map (received be ProductsEndpoint "products" 0) (seq 0 n)) /\
       get product "reference_prefix" = JStr s /\
       toLowerCase s = toLowerCase w /\
       pid = ToString (get product "id")) /\
    (forall res,
       out.1 = Return res ->
       ((0 < m)%nat /\ counted "releases" res) \/
       (m = 0%nat /\ exists t, res = text_result (Literal t))).
Proof.
  intros Hw Hne _ _ out. apply missing_present in Hne.
  assert (Hout : run (handleListReleases fuel args) be = out) by done.
  clearbody out. revert Hout.
  unfold handleListReleases. rewrite Hw, Hne.
  change (default "" (Some w)) with w.
  unfold run, try_catch.
  destruct (paginate_run be ProductsEndpoint "products" fuel [])
    as (n & Htr & Hn & Hitems).
  simpl in Htr, Hitems, Hn.
  unfold bind at 1.
  destruct (paginate fuel ProductsEndpoint "products" be []) as [[ps|e|] tr1];
    simpl in Htr, Hitems, Hn; subst tr1.
  2, 3: intros <-; exists n, O, ""; rewrite ?wrapped_rethrow; simpl; rewrite app_nil_r;
        (split; [done|]); (split; [intros; apply Hn; by left|]);
        (split; [lia|]); intros res [=].
  specialize (Hitems ps eq_refl).
  assert (Hn' : (1 <= n)%nat) by (apply Hn; by right). clear Hn.
  set (tr := map (fun j => FetchCall (page_request ProductsEndpoint j)) (seq 0 n)).
  unfold bind at 1.
  pose proof (quiet_find_product (toLowerCase w) ps be tr) as Hq.
  destruct (find_product (toLowerCase w) ps be tr) as [[product|e|] tr2] eqn:Hfind;
    simpl in Hq; subst tr2.
  2, 3: intros <-; exists n, O, ""; rewrite ?wrapped_rethrow; simpl; rewrite app_nil_r;
        (split; [done|]); (split; [done|]);
        (split; [lia|]); intros res [=].
  destruct (truthy product) eqn:Ht; cbn [negb].
  - destruct (find_product_spec _ _ _ _ _ _ Hfind Ht) as (Hin & s & Hs & Hlow).
    unfold bind at 1. unfold prop. rewrite (truthy_not_nullish _ Ht).
    cbn [ret].
    destruct (paginate_run be (ProductReleasesEndpoint (ToString (get product "id")))
                "releases" fuel tr) as (m & Htr & Hm & _).
    simpl in Htr, Hm.
    unfold bind at 1.
    destruct (paginate fuel (ProductReleasesEndpoint _) "releases" be tr)
      as [[rels|e|] tr3]; simpl in Htr, Hm; subst tr3.
    2, 3: intros <-; exists n, m, (ToString (get product "id")); rewrite ?wrapped_rethrow; simpl;
          (split; [done|]); (split; [done|]);
          (split; [intros _; exists product, s; by rewrite <- Hitems|]);
          intros res [=].
    assert (Hm' : (1 <= m)%nat) by (apply Hm; by right). clear Hm.
    match goal with
    | |- context [bind ?m0 ?k0 be ?tr0] =>
        assert (Hq2 : quiet (bind m0 k0));
        [ | assert (Hret : returns_only (counted "releases") (bind m0 k0));
            [ | specialize (Hq2 be tr0); specialize (Hret be tr0);
                destruct (bind m0 k0 be tr0) as [[res|e|] tr4];
                simpl in Hq2; subst tr4 ] ]
    end.
    + apply quiet_bind.
      * destruct (missing (name args)); [apply quiet_ret|].
        apply quiet_filterM. intros r. apply quiet_name_matches.
      * intros filtered. apply quiet_bind.
        -- apply quiet_mapM. intros r. apply quiet_format_release.
        -- quiet_auto.
    + repeat returns_step. apply returns_ret. unfold object. simpl.
      rewrite insert_insert_ne by done.
      apply (counted_listing "releases" _ [("workspace", _)]). done.
    + intros <-. exists n, m, (ToString (get product "id")). simpl.
      split; [done|]. split; [done|].
      split; [intros _; exists product, s; by rewrite <- Hitems|].
      intros res' [= <-]. left. split; [lia|]. by eapply Hret.
    + intros <-. exists n, m, (ToString (get product "id")). rewrite wrapped_rethrow. simpl.
      split; [done|]. split; [done|].
      split; [intros _; exists product, s; by rewrite <- Hitems|].
      intros res' [=].
    + intros <-. exists n, m, (ToString (get product "id")). simpl.
      split; [done|]. split; [done|].
      split; [intros _; exists product, s; by rewrite <- Hitems|].
      intros res' [=].
  - match goal with
    | |- context [bind ?m0 ?k0 be ?tr0] =>
        assert (Hq2 : quiet (bind m0 k0));
        [ | specialize (Hq2 be tr0);
            assert (Hret : returns_only (fun res => exists t, res = text_result (Literal t))
                             (bind m0 k0));
            [ | specialize (Hret be tr0);
                destruct (bind m0 k0 be tr0) as [[res|e|] tr4];
                simpl in Hq2; subst tr4 ] ]
    end.
    + apply (quiet_bind _ _ (quiet_mapM _ _ (fun p => quiet_prop p _))
               (fun prefixes => quiet_ret _)).
    + apply returns_bind. intros prefixes. apply returns_ret. eauto.
    + intros <-. exists n, O, "". simpl. rewrite app_nil_r.
      split; [done|]. split; [done|]. split; [lia|].
      intros res' [= <-]. right. split; [done|]. by eapply Hret.
    + intros <-. exists n, O, "". rewrite wrapped_rethrow. simpl. rewrite app_nil_r.
      split; [done|]. split; [done|]. split; [lia|]. intros res' [=].
    + intros <-. exists n, O, "". simpl. rewrite app_nil_r.
      split; [done|]. split; [done|]. split; [lia|]. intros res' [=].
Qed.

Lemma list_releases_requests_witness :
  exists n m pid,
    (run (handleListReleases 10 (releases_args "proj" None))
         (scripted_fetch [ one_product; three_releases ])).2
    = map (fun j => FetchCall (page_request ProductsEndpoint j)) (seq 0 n) ++
      map (fun j => FetchCall (page_request (ProductReleasesEndpoint pid) j))
        (seq 0 m) /\
    ((1 <= 10)%nat -> (1 <= n)%nat) /\
    ((0 < m)%nat ->
     exists product s,
       product ∈ concat (map (received (scripted_fetch [ one_product; three_releases ])
                                ProductsEndpoint "products" 0) (seq 0 n)) /\
       get product "reference_prefix" = JStr s /\
       toLowerCase s = toLowerCase "proj" /\
       pid = ToString (get product "id")) /\
    (forall res,
       (run (handleListReleases 10 (releases_args "proj" None))
            (scripted_fetch [ one_product; three_releases ])).1 = Return res ->
       ((0 < m)%nat /\ counted "releases" res) \/
       (m = 0%nat /\ exists t, res = text_result (Literal t))).
Proof.
  apply (list_releases_requests 10 (scripted_fetch [ one_product; three_releases ])
           (releases_args "proj" None) "proj" eq_refl ltac:(discriminate) eq_refl).
  intros k product Hin.
  destruct k as [|[|k]]; [| by apply elem_of_nil in Hin | by apply elem_of_nil in Hin].
  apply list_elem_of_singleton in Hin. subst product. split; [reflexivity | exact I].
Defined.

(** X16. The workspace prefix is matched without regard to case: two calls
    whose prefixes differ only in case make the same requests and, when the
    workspace exists, give the same result; they can differ only in the
    text that reports an unknown workspace, which quotes the prefix as it
    was given. *)
Theorem workspace_prefix_case_insensitive fuel be args args' w w' :
  workspacePrefix args = Some w -> workspacePrefix args' = Some w' ->
  w <> "" -> w' <> "" -> toLowerCase w = toLowerCase w' -> name args = name args' ->
  let out := run (handleListReleases fuel args) be in
  let out' := run (handleListReleases fuel args') be in
  out.2 = out'.2 /\
  (out.1 = out'.1 \/
   exists t t', out.1 = Return (text_result (Literal t)) /\
                out'.1 = Return (text_result (Literal t'))).
Proof.
  intros Hw Hw' Hne Hne' Hlow Hname out out'.
  assert (H : out = out' \/
              exists t t' tr, out = (Return (text_result (Literal t)), tr) /\
                              out' = (Return (text_result (Literal t')), tr)).
  { subst out out'.
    apply missing_present in Hne. apply missing_present in Hne'.
    unfold handleListReleases. rewrite Hw, Hw', Hne, Hne', <- Hname.
    change (default "" (Some w)) with w. change (default "" (Some w')) with w'.
    rewrite <- Hlow. unfold run, try_catch, bind.
    destruct (paginate fuel ProductsEndpoint "products" be []) as [[ps|e|] tr1];
      [|by left|by left].
    destruct (find_product (toLowerCase w) ps be tr1) as [[product|e|] tr2];
      [|by left|by left].
    destruct (truthy product); simpl; [by left|].
    destruct (mapM _ ps be tr2) as [[prefixes|e|] tr3]; simpl;
      [right; eauto | by left | by left]. }
  destruct H as [-> | (t & t' & tr & -> & ->)]; simpl.
  - by split; [|left].
  - split; [done|]. right. by exists t, t'.
Qed.

Lemma workspace_prefix_case_insensitive_witness :
  let out := run (handleListReleases 10 (releases_args "proj" None))
               (scripted_fetch [ one_product; three_releases ]) in
  let out' := run (handleListReleases 10 (releases_args "PROJ" None))
                (scripted_fetch [ one_product; three_releases ]) in
  out.2 = out'.2 /\
  (out.1 = out'.1 \/
   exists t t', out.1 = Return (text_result (Literal t)) /\
                out'.1 = Return (text_result (Literal t'))).
Proof.
  apply (workspace_prefix_case_insensitive 10
           (scripted_fetch [ one_product; three_releases ])
           (releases_args "proj" None) (releases_args "PROJ" None) "proj" "PROJ");
    first [reflexivity | discriminate].
Defined.

Lemma prefix_spec sub : forall s,
  String.prefix sub s = true <-> exists post, s = sub +:+ post.
Proof.
  induction sub as [|a sub IH]; intros s.
  - split; [intros _; by exists s | by destruct s].
  - destruct s as [|b s]; simpl.
    + split; [done | by intros (post & ?)].
    + destruct (ascii_dec a b) as [->|Hne].
      * rewrite IH. split; intros (post & H); exists post.
        -- simpl. by rewrite H.
        -- simpl in H. by injection H.
      * split; [done|]. intros (post & [= ? _]). done.
Qed.
(** [includes] is the substring test. *)
Lemma includes_spec sub : forall s,
  includes s sub = true <-> exists pre post, s = pre +:+ sub +:+ post.
Proof.
  induction s as [|c s IH]; cbn [includes]; rewrite orb_true_iff, prefix_spec.
  - split.
    + intros [(post & H) | H]; [|done]. by exists "", post.
    + intros (pre & post & H). left. destruct pre; [by exists post | done].
  - rewrite IH. split.
    + intros [(post & H) | (pre & post & ->)]; [by exists "", post|].
      by exists (String c pre), post.
    + intros ([|a pre] & post & H); [left; by exists post|].
      right. injection H as -> ->. by exists pre, post.
Qed.

Lemma name_matches_run q r be tr :
  well_named r ->
  exists b,
    name_matches q r be tr = (Return b, tr) /\
    (b = true <->
     exists s pre post, get r "name" = JStr s /\ toLowerCase s = pre +:+ q +:+ post).
Proof.
  intros [Hr Hn]. unfold name_matches, bind, prop. rewrite Hr. simpl.
  destruct (get r "name") as [ | | b | n | s | l | m ] eqn:G; simpl in *; try done.
  - exists false. split; [done|]. split; [done|]. by intros (s & pre & post & ? & _).
  - exists false. split; [done|]. split; [done|]. by intros (s & pre & post & ? & _).
  - exists (includes (toLowerCase s) q). split; [done|].
    rewrite includes_spec. split.
    + intros (pre & post & H). by exists s, pre, post.
    + intros (s' & pre & post & [= <-] & H). by exists pre, post.
Qed.

(** X17. On ASCII text, the name filter of [list_releases] keeps, in
    their order, exactly the releases whose name contains the filter when
    both are put in lower case; a release without a name is dropped, and
    nothing is requested. *)
Theorem release_name_filter (filter_name : string) (releases : list JsValue) be tr :
  is_ascii filter_name = true ->
  Forall well_named releases -> Forall plain_name releases ->
  exists kept,
    filterM (name_matches (toLowerCase filter_name)) releases be tr
    = (Return kept, tr) /\
    sublist kept releases /\
    forall r,
      r ∈ kept <->
      r ∈ releases /\
      exists s pre post,
        get r "name" = JStr s /\
        toLowerCase s = pre +:+ toLowerCase filter_name +:+ post.
Proof.
  intros _ Hnamed _.
  induction Hnamed as [|r releases Hr _ (kept & Hrun & Hsub & Hmem)]; simpl.
  - exists []. split; [done|]. split; [done|]. intros r.
    rewrite elem_of_nil. tauto.
  - destruct (name_matches_run (toLowerCase filter_name) r be tr Hr)
      as (b & Hb & Hsel).
    unfold bind. rewrite Hb, Hrun. simpl. destruct b.
    + exists (r :: kept). split; [done|]. split; [by apply sublist_skip|].
      intros x. rewrite !elem_of_cons, Hmem. split.
      * intros [-> | [? ?]]; [|by split; [right|]].
        split; [by left|]. by apply Hsel.
      * intros [[-> | ?] ?]; [by left | right; done].
    + exists kept. split; [done|]. split; [by apply sublist_cons|].
      intros x. rewrite Hmem, elem_of_cons. split.
      * intros [? ?]. by split; [right|].
      * intros [[-> | ?] Hx]; [|done]. apply Hsel in Hx. done.
Qed.

Lemma release_name_filter_witness :
  filterM (name_matches (toLowerCase "fy2027"))
    [ release_named "PROJ-R-1" "FY2027Q1"; release_named "PROJ-R-3" "FY2026Q4";
      release_named "PROJ-R-2" "Plan FY2027Q2" ]
    (scripted_fetch []) []
  = (Return [ release_named "PROJ-R-1" "FY2027Q1";
              release_named "PROJ-R-2" "Plan FY2027Q2" ], []) /\
  forall r,
    r ∈ [ release_named "PROJ-R-1" "FY2027Q1";
          release_named "PROJ-R-2" "Plan FY2027Q2" ] <->
    r ∈ [ release_named "PROJ-R-1" "FY2027Q1"; release_named "PROJ-R-3" "FY2026Q4";
          release_named "PROJ-R-2" "Plan FY2027Q2" ] /\
    exists s pre post,
      get r "name" = JStr s /\
      toLowerCase s = pre +:+ toLowerCase "fy2027" +:+ post.
Proof.
  destruct (release_name_filter "fy2027"
              [ release_named "PROJ-R-1" "FY2027Q1"; release_named "PROJ-R-3" "FY2026Q4";
                release_named "PROJ-R-2" "Plan FY2027Q2" ]
              (scripted_fetch []) [] eq_refl
              ltac:(repeat constructor) ltac:(repeat constructor))
    as (kept & Hrun & _ & Hmem).
  assert (kept = [ release_named "PROJ-R-1" "FY2027Q1";
                   release_named "PROJ-R-2" "Plan FY2027Q2" ]) as ->.
  { revert Hrun. vm_compute. congruence. }
  split; [exact Hrun | exact Hmem].
Defined.

(** X18. Every request of [list_features_in_release], however the run
    ends, is a [GET] for a page of the release as it was named, with the
    page size as it was given (100 when left out, never clamped); the pages
    are 1, 2, 3, ... in order. *)
Theorem list_features_requests fuel be args rel :
  releaseReference args = Some rel -> rel <> "" ->
  let out := run (handleListFeaturesInRelease fuel args) be in
  forall i c,
    out.2 !! i = Some c ->
    c = FetchCall (mkFetch (ReleaseFeaturesEndpoint rel (Z.of_nat i + 1)
                              (default 100 (perPage args))) GET None).
Proof.
  intros Hrel Hne out i c Hi.
  destruct (list_features_run fuel be args rel Hrel Hne) as (n & Htr & _).
  fold out in Htr. rewrite Htr in Hi.
  apply list_lookup_fmap_Some in Hi as (j & -> & Hj).
  apply lookup_seq in Hj as [-> _]. done.
Qed.

Lemma list_features_requests_witness :
  FetchCall (mkFetch (ReleaseFeaturesEndpoint "PROJ-R-1" 2 500) GET None)
  = FetchCall (mkFetch (ReleaseFeaturesEndpoint "PROJ-R-1" (Z.of_nat 1 + 1)
                          (default 100 (Some 500))) GET None).
Proof.
  apply (list_features_requests 5 three_pages (release_args "PROJ-R-1" (Some 500))
           "PROJ-R-1" eq_refl ltac:(discriminate) 1%nat).
  reflexivity.
Defined.

(** X19. [update_feature] sends any present reference to the features
    endpoint without looking at its format. When the answer is not [ok] the
    error carries the status and the text of the response; an [ok] answer
    is returned whole. *)
Theorem update_feature_outcome be args ref entries :
  reference args = Some ref -> ref <> "" ->
  fields args = Some entries -> entries <> [] ->
  let out := run (handleUpdateFeature args) be in
  let call := mkFetch (FeatureEndpoint ref) PUT (Some (feature_payload entries)) in
  out.2 = [FetchCall call] /\
  forall response,
    global_fetch be 0 call = Resolved response ->
    (forall errorBody,
       ok response = false -> text response = Resolved errorBody ->
       out.1 = Throw (ExMcp (mkMcpError InternalError
                               ("Failed to update feature: " +:+ rest_error response
                                +:+ " - " +:+ errorBody)))) /\
    (forall data,
       ok response = true -> json response = Resolved data ->
       out.1 = Return (text_result (JSON_stringify (body_value data)))).
Proof.
  intros Href Hne Hfields Hentries.
  apply missing_present in Hne. apply no_fields_present in Hentries.
  unfold handleUpdateFeature. rewrite Href, Hne, Hfields, Hentries.
  change (default "" (Some ref)) with ref.
  change (default [] (Some entries)) with entries.
  set (call := mkFetch (FeatureEndpoint ref) PUT _). run_handler. split.
  - destruct (global_fetch be 0 call) as [response|e]; simpl; [|by destruct e].
    destruct (ok response); simpl.
    + destruct (json response) as [data|e]; simpl; [done | by destruct e].
    + destruct (text response) as [errorBody|e]; simpl; [done | by destruct e].
  - intros response ->. simpl. split.
    + by intros errorBody -> ->.
    + by intros data -> ->.
Qed.

Lemma update_feature_outcome_witness :
  (run (handleUpdateFeature (update_args (Some "PROJ-N-7") (Some mixed_fields)))
       (scripted_fetch [ error_response 404 "Not Found" "no such feature" ])).2
  = [FetchCall (mkFetch (FeatureEndpoint "PROJ-N-7") PUT
                  (Some (feature_payload mixed_fields)))].
Proof.
  apply (update_feature_outcome
           (scripted_fetch [ error_response 404 "Not Found" "no such feature" ])
           (update_args (Some "PROJ-N-7") (Some mixed_fields)) "PROJ-N-7" mixed_fields
           eq_refl ltac:(discriminate) eq_refl ltac:(discriminate)).
Defined.

(** ** What the listing operations return *)




(** X21. [format_release] is a projection: the value it returns answers
    the six reported fields as the release does and no other field, no
    transport is called, and formatting the result again changes nothing.
    It throws exactly on a release that is [null] or [undefined]. *)
Theorem format_release_projects r be tr :
  (nullish r = false ->
   exists o,
     format_release r be tr = (Return o, tr) /\
     (forall k, get o k =
                if bool_decide (k ∈ reported_fields) then get r k
                else JUndefined) /\
     format_release o be tr = (Return o, tr)) /\
  (nullish r = true ->
   format_release r be tr =
     (Throw (TypeError ("Cannot read properties of " +:+ ToString r)), tr)).
Proof.
  split; intros Hr.
  - unfold format_release, bind, prop. rewrite Hr. unfold ret.
    eexists. split; [reflexivity|]. split.
    + intros k. unfold object, get at 1, reported_fields.
      cbn [list_to_map foldr uncurry fst snd].
      destruct (bool_decide_reflect
                  (k ∈ [ "reference_num"; "name"; "start_date";
                         "release_date"; "parking_lot"; "url" ])) as [Hk|Hk].
      * rewrite !elem_of_cons, elem_of_nil in Hk.
        destruct Hk as [->|[->|[->|[->|[->|[->|[]]]]]]];
          by repeat (rewrite ?lookup_insert_eq, ?lookup_insert_ne by done).
      * rewrite !not_elem_of_cons in Hk.
        destruct Hk as (? & ? & ? & ? & ? & ? & _).
        rewrite !lookup_insert_ne by done.
        by rewrite lookup_empty.
    + unfold object. simpl. unfold get at 1 2 3 4 5 6.
      repeat (rewrite ?lookup_insert_eq, ?lookup_insert_ne by done).
      done.
  - unfold format_release, bind, prop. by rewrite Hr.
Qed.

Lemma format_release_projects_witness :
  exists o,
    format_release (release_named "PROJ-R-1" "FY2027Q1")
      (scripted_fetch []) [] = (Return o, []) /\
    (forall k, get o k =
               if bool_decide (k ∈ reported_fields)
               then get (release_named "PROJ-R-1" "FY2027Q1") k
               else JUndefined) /\
    format_release o (scripted_fetch []) [] = (Return o, []).
Proof.
  exact (proj1 (format_release_projects (release_named "PROJ-R-1" "FY2027Q1")
                  (scripted_fetch []) []) eq_refl).
Defined.
